(** * Change tracking and diffing (lib/models/change.js)

    A shallow embedding of the [Change] model: the change record, its
    pure predicates ([type], [equals], [isBasedOn]), content hashing and
    identity ([hash], [idForModel], [revisionForInst]), the rectifier
    ([currentRevision], [rectify]), the tracker ([findOrCreate], [track])
    and the diff engine ([diff]).

    Node-style callbacks [function(err, result)] are written in direct
    style over a small state monad [Async]: an operation takes the world
    (the stores) and returns an [outcome] together with the new world. *)

From Stdlib Require Import ZArith String Ascii List.
From stdpp Require Import gmap strings list fin_maps.
Import ListNotations.

Local Open Scope string_scope.
Local Open Scope list_scope.

(** ** JavaScript values held by a String property *)

(** A property declared [{type: String}] holds [undefined], [null] or a
    string.  On this domain [===] is structural equality. *)
Inductive jsval : Type :=
  | JUndefined
  | JNull
  | JStr (s : string).

#[global] Instance jsval_eq_dec : EqDecision jsval.
Proof. solve_decision. Defined.

(** ToBoolean: [undefined], [null] and the empty string are falsy. *)
Definition truthy (v : jsval) : bool :=
  match v with
  | JStr s => negb (String.eqb s "")
  | _ => false
  end.

(** A property is set when it holds a non-empty string. *)
Definition is_set (v : jsval) : Prop := exists s, v = JStr s /\ s <> "".

(** [a === b] *)
Definition strict_eq (a b : jsval) : bool := bool_decide (a = b).

(** [a || dflt] for a string-valued default. *)
Definition or_default (a : jsval) (dflt : string) : string :=
  match a with
  | JStr s => if String.eqb s "" then dflt else s
  | _ => dflt
  end.

(** [Array.prototype.join] on an array of strings. *)
Fixpoint join (sep : string) (l : list string) : string :=
  match l with
  | [] => ""
  | [x] => x
  | x :: xs => (x ++ sep ++ join sep xs)%string
  end.

(** Does the character [c] occur in [s]? *)
Fixpoint occurs (c : ascii) (s : string) : bool :=
  match s with
  | EmptyString => false
  | String a s' => Ascii.eqb a c || occurs c s'
  end.

(** ** Outcomes of asynchronous operations *)

Inductive Error : Type :=
  | StoreError (msg : string)
  | TypeError (msg : string).

(** What a callback-taking operation ends with: [callback(null, a)],
    [callback(err)], or an exception thrown before any callback ran. *)
Inductive outcome (A : Type) : Type :=
  | Ok (a : A)
  | Err (e : Error)
  | Thrown (e : Error).
Arguments Ok {A} a.
Arguments Err {A} e.
Arguments Thrown {A} e.

Module Change.

(** ** The change record *)

Record t : Type := new {
  rev : jsval;
  prev : jsval;
  checkpoint : option Z;
  modelName : string;
  modelId : string
}.

#[global] Instance t_eq_dec : EqDecision t.
Proof. solve_decision. Defined.

(** Constants *)
Definition UPDATE : string := "update".
Definition CREATE : string := "create".
Definition DELETE : string := "delete".
Definition UNKNOWN : string := "unknown".

(** [Change.prototype.type] *)
Definition type (this : t) : string :=
  if truthy (rev this) && truthy (prev this) then UPDATE
  else if truthy (rev this) && negb (truthy (prev this)) then CREATE
  else if negb (truthy (rev this)) && truthy (prev this) then DELETE
  else UNKNOWN.

(** [Change.prototype.equals] *)
Definition equals (this change : t) : bool :=
  strict_eq (rev change) (rev this).

(** [Change.prototype.isBasedOn] *)
Definition isBasedOn (this change : t) : bool :=
  strict_eq (prev this) (rev change).

(** ** Hashing and identity *)

Section Hashing.

(** [crypto.createHash(alg).update(str).digest('hex')] *)
Variable digest : string -> string -> string.
(** [Change.settings.hashAlgorithm] *)
Variable hashAlgorithm : jsval.

(** [Change.hash] *)
Definition hash (str : string) : string :=
  digest (or_default hashAlgorithm "sha1") str.

(** [Change.idForModel] *)
Definition idForModel (modelName modelId : string) : string :=
  hash (join "-" [modelName; modelId]).

(** The [id] getter installed by [Change.setup]. *)
Definition id (this : t) : jsval :=
  let hasModel :=
    negb (String.eqb (modelName this) "") && negb (String.eqb (modelId this) "") in
  if negb hasModel then JNull
  else JStr (idForModel (modelName this) (modelId this)).

Section Revision.
(** Entity instances and [CJSON.stringify] (canonical-json). *)
Variable Inst : Type.
Variable stringify : Inst -> string.

(** [Change.revisionForInst] *)
Definition revisionForInst (inst : Inst) : string :=
  hash (stringify inst).
End Revision.

End Hashing.

(** ** Asynchronous operations *)

(** A callback-taking operation over the world [W] of stores. *)
Definition Async (W A : Type) : Type := W -> outcome A * W.

(** [callback(null, a)] *)
Definition cb_ok {W A} (a : A) : Async W A := fun w => (Ok a, w).
(** [callback(err)] *)
Definition cb_err {W A} (err : Error) : Async W A := fun w => (Err err, w).
(** An exception escaping the operation. *)
Definition throw {W A} (e : Error) : Async W A := fun w => (Thrown e, w).

(** [op(function(err, a) { ... })]: run [op], hand its [(err, a)] to the
    callback.  An exception is not seen by the callback. *)
Definition call {W A B} (op : Async W A) (cb : Error + A -> Async W B)
  : Async W B :=
  fun w =>
    match op w with
    | (Ok a, w') => cb (inr a) w'
    | (Err e, w') => cb (inl e) w'
    | (Thrown e, w') => (Thrown e, w')
    end.

(** [Change.handleError(err, cb)]: the source calls it (in [track],
    [rectify] and [currentRevision]) and defines it nowhere, so the call
    itself raises a [TypeError] and [cb] is never called. *)
Definition handleError {W A} (err : Error) : Async W A :=
  throw (TypeError "undefined is not a function").

(** What [async.parallel] ends with: [callback(err, results)], where
    [results] is the array as it is at that call, with [undefined] at the
    place of a task that handed over no value; or an exception escaping a
    task, together with what the callback was told before, if it was
    called. *)
Inductive batch (A : Type) : Type :=
  | Callback (err : option Error) (results : list (option A))
  | Uncaught (e : Error) (told : option (Error * list (option A))).
Arguments Callback {A} err results.
Arguments Uncaught {A} e told.

(** [async.parallel(tasks, callback)] of the async package, which the
    source requires.  Every task is started and none is cancelled when a
    sibling fails; each task stores its value in [results]; the first
    error is handed to [callback] at once, together with [results] as far
    as it is filled, and later errors are dropped; without an error
    [callback] gets all the results.  The tasks run to completion one
    after the other in array order, which is the schedule of a store that
    calls back synchronously; an exception then ends the run. *)
Fixpoint parallel_run {W A} (tasks : list (Async W A))
    (results : list (option A)) (told : option (Error * list (option A)))
  : W -> batch A * W :=
  match tasks with
  | [] =>
      fun w =>
        match told with
        | Some (err, partial) => (Callback (Some err) partial, w)
        | None => (Callback None results, w)
        end
  | task :: rest =>
      fun w =>
        match task w with
        | (Ok a, w') => parallel_run rest (results ++ [Some a]) told w'
        | (Err e, w') =>
            parallel_run rest (results ++ [None])
              (match told with
               | Some first => Some first
               | None => Some (e, results ++ [None])
               end) w'
        | (Thrown e, w') => (Uncaught e told, w')
        end
  end.

Definition async_parallel {W A} (tasks : list (Async W A)) : W -> batch A * W :=
  parallel_run tasks [] None.

(** ** The [where] filter of [Change.find] *)

Record Query : Type := {
  where_modelName : string;
  where_modelId_inq : list string;
  where_checkpoint_gt : Z
}.

(** The result object of [Change.diff]. *)
Record DiffResult : Type := {
  deltas : list t;
  conflicts : list t
}.

(** [Number(since) || 0] on an integer checkpoint: [0] is the only falsy
    one. *)
Definition normalize_since (since : Z) : Z :=
  if Z.eqb since 0 then 0%Z else since.

(** The first loop of [Change.diff]: collect every remote [modelId] and
    index the remote changes by [modelId]; [new Change(ch)] copies the
    properties of [ch]. *)
Definition index_remote (remoteChanges : list t) : list string * gmap string t :=
  fold_left
    (fun '(modelIds, remoteChangeIndex) ch =>
       (modelIds ++ [modelId ch], <[modelId ch := ch]> remoteChangeIndex))
    remoteChanges ([], ∅).

(** The names every plain object inherits from [Object.prototype]. *)
Definition object_prototype_keys : list string :=
  ["constructor"; "__defineGetter__"; "__defineSetter__"; "hasOwnProperty";
   "__lookupGetter__"; "__lookupSetter__"; "isPrototypeOf";
   "propertyIsEnumerable"; "toString"; "valueOf"; "__proto__";
   "toLocaleString"].

(** What reading a key of the index object gives. *)
Inductive property : Type :=
  | OwnChange (remoteChange : t)
  | Inherited
  | Undefined.

(** [remoteChangeIndex[key]], the index being a plain object [{}]: an
    entry put there by the first loop, else a member of [Object.prototype],
    else [undefined].  (Writing the key ["__proto__"] sets the prototype of
    the index rather than an own property, and reading that key gives the
    written change back, as the map does; what other keys then inherit
    from that change lies outside the source and is left out.) *)
Definition index_get (remoteChangeIndex : gmap string t) (key : string)
  : property :=
  match remoteChangeIndex !! key with
  | Some remoteChange => OwnChange remoteChange
  | None =>
      if existsb (String.eqb key) object_prototype_keys
      then Inherited
      else Undefined
  end.

(** The body of [localChanges.forEach] in [Change.diff].  Reading [rev] of
    [undefined] raises a [TypeError]; an inherited member has no [rev] and
    no [isBasedOn], so the record is skipped when its own [rev] is
    [undefined] and calling [isBasedOn] raises a [TypeError] otherwise. *)
Definition diff_each (remoteChangeIndex : gmap string t)
    (acc : outcome (list t * list t)) (localChange : t)
  : outcome (list t * list t) :=
  match acc with
  | Ok (deltas, conflicts) =>
      match index_get remoteChangeIndex (modelId localChange) with
      | Undefined => Thrown (TypeError "Cannot read property 'rev' of undefined")
      | Inherited =>
          if negb (strict_eq JUndefined (rev localChange))
          then Thrown (TypeError "undefined is not a function")
          else Ok (deltas, conflicts)
      | OwnChange remoteChange =>
          if negb (equals localChange remoteChange) then
            if isBasedOn remoteChange localChange
            then Ok (deltas ++ [remoteChange], conflicts)
            else Ok (deltas, conflicts ++ [localChange])
          else Ok (deltas, conflicts)
      end
  | other => other
  end.

(** The callback [Change.diff] passes to [find], on success of the query. *)
Definition diff_callback (remoteChangeIndex : gmap string t)
    (localChanges : list t) : outcome DiffResult :=
  match fold_left (diff_each remoteChangeIndex) localChanges (Ok ([], [])) with
  | Ok (deltas, conflicts) => Ok {| deltas := deltas; conflicts := conflicts |}
  | Err e => Err e
  | Thrown e => Thrown e
  end.

(** ** Rectifier, tracker and diff engine over the external stores *)

Section Model.

Variable World : Type.
Variable Inst : Type.
Variable digest : string -> string -> string.
Variable hashAlgorithm : jsval.
Variable stringify : Inst -> string.

(** The keyed store of change records. *)
Variable findById : string -> Async World (option t).
Variable find : Query -> Async World (list t).
Variable save : t -> Async World t.

(** [modelBuilder.models]: the [findById] of each registered model. *)
Variable models : string -> option (string -> Async World (option Inst)).

(** [Change.findOrCreate] *)
Definition findOrCreate (modelName modelId : string) : Async World t :=
  let id := idForModel digest hashAlgorithm modelName modelId in
  call (findById id) (fun r =>
    match r with
    | inl err => cb_err err
    | inr (Some change) => cb_ok change
    | inr None =>
        let ch := new JUndefined JUndefined None modelName modelId in
        save ch
    end).

(** [Change.prototype.getModelCtor] *)
Definition getModelCtor (this : t) : option (string -> Async World (option Inst)) :=
  models (modelName this).

(** [Change.prototype.currentRevision] *)
Definition currentRevision (this : t) : Async World jsval :=
  match getModelCtor this with
  | None => throw (TypeError "Cannot read property 'findById' of undefined")
  | Some model =>
      call (model (modelId this)) (fun r =>
        match r with
        | inl err => handleError err
        | inr (Some inst) =>
            cb_ok (JStr (revisionForInst digest hashAlgorithm Inst stringify inst))
        | inr None => cb_ok JNull
        end)
  end.

(** [Change.prototype.rectify] *)
Definition rectify (this : t) : Async World t :=
  let change :=
    new (rev this) (rev this) (checkpoint this) (modelName this) (modelId this) in
  call (currentRevision change) (fun r =>
    match r with
    | inl err => handleError err
    | inr rev' =>
        save (new rev' (prev change) (checkpoint change)
                (modelName change) (modelId change))
    end).

(** One task of [Change.track]. *)
Definition track_task (modelName id : string) : Async World t :=
  call (findOrCreate modelName id) (fun r =>
    match r with
    | inl err => handleError err
    | inr change => rectify change
    end).

(** [Change.track] *)
Definition track (modelName : string) (modelIds : list string)
  : World -> batch t * World :=
  let tasks := map (track_task modelName) modelIds in
  async_parallel tasks.

(** [Change.diff] *)
Definition diff (modelName : string) (since : Z) (remoteChanges : list t)
  : Async World DiffResult :=
  let '(modelIds, remoteChangeIndex) := index_remote remoteChanges in
  let since := normalize_since since in
  call (find {| where_modelName := modelName;
                where_modelId_inq := modelIds;
                where_checkpoint_gt := since |})
    (fun r =>
       match r with
       | inl err => cb_err err
       | inr localChanges =>
           fun w => (diff_callback remoteChangeIndex localChanges, w)
       end).

End Model.

End Change.

(** ** An in-memory store *)

Module MemStore.

(** The world: the table of change records, the entities of every model
    as [(modelName, modelId, canonical JSON)], and the entity keys whose
    lookup currently fails. *)
Record world : Type := {
  changes : list Change.t;
  entities : list (string * string * string);
  unavailable : list (string * string)
}.

(** Does a change record satisfy the [where] filter? *)
Definition matches (q : Change.Query) (c : Change.t) : bool :=
  String.eqb (Change.modelName c) (Change.where_modelName q)
  && existsb (String.eqb (Change.modelId c)) (Change.where_modelId_inq q)
  && match Change.checkpoint c with
     | Some n => Z.ltb (Change.where_checkpoint_gt q) n
     | None => false
     end.

(** Modelled from the spec: the keyed store's [find], section 6:
    [find(filter: {modelName equals, modelId in set, checkpoint
    greaterThan N})]; the store itself is not part of the source. *)
Definition find (q : Change.Query) : Change.Async world (list Change.t) :=
  fun w => (Ok (List.filter (matches q) (changes w)), w).

Section Keyed.

Variable digest : string -> string -> string.
Variable hashAlgorithm : jsval.

Definition has_id (i : jsval) (c : Change.t) : bool :=
  bool_decide (Change.id digest hashAlgorithm c = i).

(** Modelled from the spec: the keyed store's [findById(id)], section 6. *)
Definition findById (i : string) : Change.Async world (option Change.t) :=
  fun w => (Ok (List.find (has_id (JStr i)) (changes w)), w).

(** Modelled from the spec: the keyed store's [save(record)], section 6:
    the record replaces the one stored under its id, or is added. *)
Definition save (c : Change.t) : Change.Async world Change.t :=
  fun w =>
    let same := has_id (Change.id digest hashAlgorithm c) in
    let changes' :=
      if existsb same (changes w)
      then map (fun c' => if same c' then c else c') (changes w)
      else changes w ++ [c] in
    (Ok c, {| changes := changes';
              entities := entities w;
              unavailable := unavailable w |}).

End Keyed.

(** Modelled from the spec: the entity accessor, section 6:
    [findById(modelId) -> entity or not-found], or a store error. *)
Definition entity_findById (modelName modelId : string)
  : Change.Async world (option string) :=
  fun w =>
    if bool_decide ((modelName, modelId) ∈ unavailable w)
    then (Err (StoreError "entity store unavailable"), w)
    else
      (Ok (snd <$> List.find
             (fun e => bool_decide (fst e = (modelName, modelId)))
             (entities w)), w).

(** Every model name is registered. *)
Definition models (modelName : string)
  : option (string -> Change.Async world (option string)) :=
  Some (entity_findById modelName).

(** A stand-in digest for running examples: it keeps its input. *)
Definition plain_digest (alg str : string) : string := (alg ++ ":" ++ str)%string.

(** [Change.diff] against the in-memory table [db]. *)
Definition diff (modelName : string) (since : Z) (remoteChanges db : list Change.t)
  : outcome Change.DiffResult :=
  fst (Change.diff world find modelName since remoteChanges
         {| changes := db; entities := []; unavailable := [] |}).

Definition rectify (c : Change.t) : Change.Async world Change.t :=
  Change.rectify world string plain_digest JUndefined (fun s => s)
    (save plain_digest JUndefined) models c.

Definition track (modelName : string) (modelIds : list string)
  : world -> Change.batch Change.t * world :=
  Change.track world string plain_digest JUndefined (fun s => s)
    (findById plain_digest JUndefined) (save plain_digest JUndefined) models
    modelName modelIds.

Definition findOrCreate (modelName modelId : string) : Change.Async world Change.t :=
  Change.findOrCreate world plain_digest JUndefined
    (findById plain_digest JUndefined) (save plain_digest JUndefined)
    modelName modelId.

Definition track_task (modelName id : string) : Change.Async world Change.t :=
  Change.track_task world string plain_digest JUndefined (fun s => s)
    (findById plain_digest JUndefined) (save plain_digest JUndefined) models
    modelName id.

End MemStore.

(** A store that answers every query with the records [localChanges]. *)
Definition answering {World : Type} (localChanges : list Change.t)
  : Change.Query -> Change.Async World (list Change.t) :=
  fun _ w => (Ok localChanges, w).

(** A keyed store without state, to run [track] where a save fails: every
    id has a record, the one of the key ["user-2"] with model id ["2"];
    saving a record with model id ["2"] fails; no entity exists. *)
Module FlakyStore.

Definition digest (alg str : string) : string := str.

Definition findById (i : string) : Change.Async unit (option Change.t) :=
  fun w =>
    (Ok (Some (Change.new JNull JNull None "user"
                 (if String.eqb i "user-2" then "2" else "1"))), w).

Definition save (c : Change.t) : Change.Async unit Change.t :=
  fun w =>
    if String.eqb (Change.modelId c) "2"
    then (Err (StoreError "disk full"), w)
    else (Ok c, w).

Definition models (modelName : string)
  : option (string -> Change.Async unit (option string)) :=
  Some (fun _ w => (Ok None, w)).

Definition track (modelName : string) (modelIds : list string)
  : unit -> Change.batch Change.t * unit :=
  Change.track unit string digest JUndefined (fun s => s) findById save models
    modelName modelIds.

End FlakyStore.

(** ** Records of the test scenarios *)

Module Scenario.

(** The local record of scenarios A and B, written at checkpoint 5. *)
Definition local5 : Change.t :=
  Change.new (JStr "A") (JStr "X") (Some 5%Z) "user" "1".
(** The local record of scenario C, written at checkpoint 3. *)
Definition local3 : Change.t :=
  Change.new (JStr "A") (JStr "X") (Some 3%Z) "user" "1".
(** A remote change made from the local revision. *)
Definition remote_delta : Change.t :=
  Change.new (JStr "B") (JStr "A") None "user" "1".
(** A remote change made from another revision. *)
Definition remote_conflict : Change.t :=
  Change.new (JStr "B") (JStr "C") None "user" "1".
(** A remote change at the local revision. *)
Definition remote_same : Change.t :=
  Change.new (JStr "A") (JStr "W") None "user" "1".

(** The change record of an entity that is gone. *)
Definition local_gone : Change.t :=
  Change.new (JStr "A") (JStr "X") (Some 5%Z) "user" "9".

(** A world whose table holds the local record of scenarios A and B. *)
Definition table5 : MemStore.world :=
  {| MemStore.changes := [local5];
     MemStore.entities := [];
     MemStore.unavailable := [] |}.

(** A world with the entities user/1 and user/3, where user/2 cannot be
    read. *)
Definition world0 : MemStore.world :=
  {| MemStore.changes := [];
     MemStore.entities := [("user", "1", "{}"); ("user", "3", "{}")];
     MemStore.unavailable := [("user", "2")] |}.

(** The same world with every entity readable. *)
Definition world1 : MemStore.world :=
  {| MemStore.changes := [];
     MemStore.entities := [("user", "1", "{}"); ("user", "3", "{}")];
     MemStore.unavailable := [] |}.

End Scenario.

(** * Properties *)

Section PureFacts.

Import Change.

Lemma strict_eq_iff (a b : jsval) : strict_eq a b = true <-> a = b.
Proof. unfold strict_eq. apply bool_decide_eq_true. Qed.

Lemma truthy_iff (v : jsval) :
  truthy v = true <-> exists s, v = JStr s /\ s <> "".
Proof.
  destruct v as [| |s]; simpl.
  - split; [discriminate | intros (s & H & _); discriminate].
  - split; [discriminate | intros (s & H & _); discriminate].
  - rewrite negb_true_iff. split.
    + intros H. exists s. split; [reflexivity|].
      intros ->. discriminate.
    + intros (s' & [= <-] & Hne). apply String.eqb_neq. exact Hne.
Qed.

End PureFacts.

Section StringFacts.

Lemma join_pair (sep a b : string) : join sep [a; b] = (a ++ sep ++ b)%string.
Proof. reflexivity. Qed.

Lemma append_nil (s : string) : ("" ++ s)%string = s.
Proof. reflexivity. Qed.

Lemma append_cons (a : ascii) (s u : string) :
  (String a s ++ u)%string = String a (s ++ u)%string.
Proof. reflexivity. Qed.

(** A string is cut at its first ["-"] in one way only. *)
Lemma dash_split (s1 s2 t1 t2 : string) :
  occurs "-" s1 = false -> occurs "-" s2 = false ->
  (s1 ++ "-" ++ t1 = s2 ++ "-" ++ t2)%string ->
  s1 = s2 /\ t1 = t2.
Proof.
  revert s2. induction s1 as [|a s1 IH]; intros [|b s2]; intros H1 H2 E;
    repeat (rewrite append_nil in E || rewrite append_cons in E);
    cbn in H1, H2.
  - split; congruence.
  - injection E as Ea _. subst b. discriminate H2.
  - injection E as Ea _. subst a. discriminate H1.
  - apply orb_false_iff in H1 as [_ H1]. apply orb_false_iff in H2 as [_ H2].
    injection E as Ea E. destruct (IH s2 H1 H2 E) as [Es Et].
    split; congruence.
Qed.

End StringFacts.

(** ** Pure predicates *)

(** C3: [isBasedOn(remote, local)] is true exactly when [remote.prev]
    equals [local.rev]. *)
Theorem isBasedOn_iff (remote local : Change.t) :
  Change.isBasedOn remote local = true
  <-> Change.prev remote = Change.rev local.
Proof. unfold Change.isBasedOn. apply strict_eq_iff. Qed.

(** C8: [equals(a, b)] is true exactly when [a.rev] equals [b.rev], and
    replacing [prev] and [checkpoint] of either record by any other value
    leaves the result unchanged. *)
Theorem equals_iff_rev (a b : Change.t) :
  (Change.equals a b = true <-> Change.rev a = Change.rev b)
  /\ (forall (p1 p2 : jsval) (k1 k2 : option Z),
        Change.equals
          (Change.new (Change.rev a) p1 k1 (Change.modelName a) (Change.modelId a))
          (Change.new (Change.rev b) p2 k2 (Change.modelName b) (Change.modelId b))
        = Change.equals a b).
Proof.
  split.
  - unfold Change.equals. rewrite strict_eq_iff. split; congruence.
  - intros. reflexivity.
Qed.

(** C5 (as stated) fails: a record whose [rev] is the empty string and
    whose [prev] is a digest has both fields non-null, and its type is
    [DELETE], not [UPDATE]. *)
Lemma type_empty_rev_not_update :
  Change.rev (Change.new (JStr "") (JStr "a1") None "user" "1") <> JNull
  /\ Change.prev (Change.new (JStr "") (JStr "a1") None "user" "1") <> JNull
  /\ Change.type (Change.new (JStr "") (JStr "a1") None "user" "1") = Change.DELETE
  /\ Change.DELETE <> Change.UPDATE.
Proof. repeat split; discriminate. Qed.

(** C5 (amended): with "set" meaning a non-empty string, [type] is
    [UPDATE] when [rev] and [prev] are both set, [CREATE] when only [rev]
    is, [DELETE] when only [prev] is, and [UNKNOWN] when neither is. *)
Theorem type_table (c : Change.t) :
  (is_set (Change.rev c) -> is_set (Change.prev c) -> Change.type c = Change.UPDATE)
  /\ (is_set (Change.rev c) -> ~ is_set (Change.prev c) -> Change.type c = Change.CREATE)
  /\ (~ is_set (Change.rev c) -> is_set (Change.prev c) -> Change.type c = Change.DELETE)
  /\ (~ is_set (Change.rev c) -> ~ is_set (Change.prev c) -> Change.type c = Change.UNKNOWN).
Proof.
  unfold Change.type, is_set.
  pose proof (truthy_iff (Change.rev c)) as Hr.
  pose proof (truthy_iff (Change.prev c)) as Hp.
  destruct (truthy (Change.rev c)), (truthy (Change.prev c)); simpl;
    repeat split; intros H1 H2; try reflexivity; exfalso;
    first [ apply H1, Hr; reflexivity
          | apply H2, Hp; reflexivity
          | apply Hr in H1; discriminate
          | apply Hp in H2; discriminate ].
Qed.

Lemma type_table_witness :
  Change.type (Change.new (JStr "b2") (JStr "a1") (Some 1%Z) "user" "1") = Change.UPDATE
  /\ Change.type (Change.new (JStr "b2") JNull (Some 1%Z) "user" "1") = Change.CREATE
  /\ Change.type (Change.new JNull (JStr "a1") (Some 1%Z) "user" "1") = Change.DELETE
  /\ Change.type (Change.new JNull JUndefined None "user" "1") = Change.UNKNOWN.
Proof.
  assert (Hset : forall s, s <> "" -> is_set (JStr s))
    by (intros s Hs; exists s; split; [reflexivity | exact Hs]).
  assert (Hnull : ~ is_set JNull) by (intros (s & H & _); discriminate).
  assert (Hundef : ~ is_set JUndefined) by (intros (s & H & _); discriminate).
  split; [|split; [|split]].
  - apply (proj1 (type_table _)); simpl; apply Hset; discriminate.
  - apply (proj1 (proj2 (type_table _))); simpl; [apply Hset; discriminate | exact Hnull].
  - apply (proj1 (proj2 (proj2 (type_table _)))); simpl; [exact Hnull | apply Hset; discriminate].
  - apply (proj2 (proj2 (proj2 (type_table _)))); simpl; [exact Hnull | exact Hundef].
Defined.

(** ** Identity *)

(** C7 (as stated) fails: the pairs [("a-b", "c")] and [("a", "b-c")]
    differ and are joined to the same key, so they get the same id under
    every digest. *)
Lemma idForModel_collision :
  ("a-b", "c") <> ("a", "b-c")
  /\ (forall digest hashAlgorithm,
        Change.idForModel digest hashAlgorithm "a-b" "c"
        = Change.idForModel digest hashAlgorithm "a" "b-c").
Proof. split; [discriminate | reflexivity]. Qed.

(** C7 (amended): [idForModel(modelName, modelId)] is
    [hash(modelName + "-" + modelId)]; equal pairs get equal ids; and two
    pairs whose model names hold no ["-"] and whose joined keys the digest
    does not collide on get equal ids only if they are equal. *)
Theorem idForModel_spec (digest : string -> string -> string) (hashAlgorithm : jsval) :
  (forall mn mi,
     Change.idForModel digest hashAlgorithm mn mi
     = Change.hash digest hashAlgorithm (mn ++ "-" ++ mi)%string)
  /\ (forall mn1 mi1 mn2 mi2, mn1 = mn2 -> mi1 = mi2 ->
        Change.idForModel digest hashAlgorithm mn1 mi1
        = Change.idForModel digest hashAlgorithm mn2 mi2)
  /\ (forall mn1 mi1 mn2 mi2,
        occurs "-" mn1 = false -> occurs "-" mn2 = false ->
        (Change.hash digest hashAlgorithm (mn1 ++ "-" ++ mi1)%string
         = Change.hash digest hashAlgorithm (mn2 ++ "-" ++ mi2)%string ->
         (mn1 ++ "-" ++ mi1 = mn2 ++ "-" ++ mi2)%string) ->
        Change.idForModel digest hashAlgorithm mn1 mi1
        = Change.idForModel digest hashAlgorithm mn2 mi2 ->
        mn1 = mn2 /\ mi1 = mi2).
Proof.
  split; [|split].
  - intros. unfold Change.idForModel. rewrite join_pair. reflexivity.
  - intros * -> ->. reflexivity.
  - intros * H1 H2 Hinj E. unfold Change.idForModel in E.
    rewrite !join_pair in E. apply Hinj in E.
    exact (dash_split _ _ _ _ H1 H2 E).
Qed.

Lemma idForModel_spec_witness :
  Change.idForModel MemStore.plain_digest JUndefined "user" "1" = "sha1:user-1"
  /\ ("user" = "user" /\ "1" = "1").
Proof.
  split.
  - rewrite (proj1 (idForModel_spec MemStore.plain_digest JUndefined) "user" "1").
    reflexivity.
  - apply (proj2 (proj2 (idForModel_spec MemStore.plain_digest JUndefined))
             "user" "1" "user" "1").
    + reflexivity.
    + reflexivity.
    + intros _. reflexivity.
    + reflexivity.
Defined.

(** ** The remote index *)

Section RemoteIndex.

Import Change.

Lemma index_remote_snoc (remotes : list t) (ch : t) :
  index_remote (remotes ++ [ch])
  = (fst (index_remote remotes) ++ [modelId ch],
     <[modelId ch := ch]> (snd (index_remote remotes))).
Proof.
  unfold index_remote. rewrite fold_left_app. simpl.
  destruct (fold_left _ remotes _) as [ids idx]. reflexivity.
Qed.

Lemma index_remote_ids (remotes : list t) :
  fst (index_remote remotes) = map modelId remotes.
Proof.
  induction remotes as [|ch remotes IH] using rev_ind; [reflexivity|].
  rewrite index_remote_snoc, map_app, IH. reflexivity.
Qed.

Lemma index_remote_lookup (remotes : list t) (k : string) :
  snd (index_remote remotes) !! k
  = last (List.filter (fun ch => String.eqb (modelId ch) k) remotes).
Proof.
  induction remotes as [|ch remotes IH] using rev_ind; [reflexivity|].
  rewrite index_remote_snoc, List.filter_app. simpl.
  destruct (String.eqb_spec (modelId ch) k) as [->|Hne].
  - rewrite lookup_insert_eq, last_snoc. reflexivity.
  - rewrite lookup_insert_ne by exact Hne. rewrite app_nil_r. exact IH.
Qed.

(** An index entry is one of the remote changes and sits under its own
    [modelId]. *)
Lemma index_remote_entry (remotes : list t) (k : string) (r : t) :
  snd (index_remote remotes) !! k = Some r -> modelId r = k /\ In r remotes.
Proof.
  rewrite index_remote_lookup. intros H.
  apply last_Some_elem_of, list_elem_of_In, filter_In in H as [Hin Hk].
  split; [apply String.eqb_eq, Hk | exact Hin].
Qed.

(** Every remote [modelId] has an index entry. *)
Lemma index_remote_total (remotes : list t) (k : string) :
  In k (map modelId remotes) -> is_Some (snd (index_remote remotes) !! k).
Proof.
  intros Hin. apply in_map_iff in Hin as (ch & Hk & Hin).
  rewrite index_remote_lookup.
  assert (Hf : In ch (List.filter (fun ch => String.eqb (modelId ch) k) remotes))
    by (apply filter_In; split; [exact Hin | apply String.eqb_eq, Hk]).
  destruct (List.filter _ remotes) as [|x l] eqn:E using rev_ind.
  - destruct Hf.
  - rewrite last_snoc. eexists; reflexivity.
Qed.

End RemoteIndex.

(** ** The comparison loop of [diff] *)

Section DiffLoop.

Import Change.

Variable idx : gmap string t.

Lemma diff_callback_snoc (locals : list t) (l : t) :
  diff_callback idx (locals ++ [l])
  = match diff_callback idx locals with
    | Ok res =>
        match diff_each idx (Ok (deltas res, conflicts res)) l with
        | Ok (d, c) => Ok {| deltas := d; conflicts := c |}
        | Err e => Err e
        | Thrown e => Thrown e
        end
    | other => other
    end.
Proof.
  unfold diff_callback. rewrite fold_left_app. simpl.
  destruct (fold_left (diff_each idx) locals (Ok ([], []))) as [[d c]|e|e];
    reflexivity.
Qed.

(** The three dispositions of one local record against its counterpart. *)
Lemma diff_each_cases (d c : list t) (l remote : t) :
  idx !! modelId l = Some remote ->
  diff_each idx (Ok (d, c)) l
  = if decide (rev l = rev remote) then Ok (d, c)
    else if decide (prev remote = rev l) then Ok (d ++ [remote], c)
    else Ok (d, c ++ [l]).
Proof.
  intros Hr. unfold diff_each, index_get. rewrite Hr.
  unfold equals, isBasedOn, strict_eq.
  destruct (decide (rev l = rev remote)) as [E|E].
  - rewrite bool_decide_eq_true_2 by congruence. reflexivity.
  - rewrite bool_decide_eq_false_2 by congruence. simpl.
    destruct (decide (prev remote = rev l)) as [B|B].
    + rewrite bool_decide_eq_true_2 by exact B. reflexivity.
    + rewrite bool_decide_eq_false_2 by exact B. reflexivity.
Qed.

(** A record without an entry in the index adds nothing to the lists:
    it is skipped or an exception ends the loop. *)
Lemma diff_each_no_entry (d c : list t) (l : t) :
  idx !! modelId l = None ->
  diff_each idx (Ok (d, c)) l = Ok (d, c)
  \/ exists e, diff_each idx (Ok (d, c)) l = Thrown e.
Proof.
  intros Hr. unfold diff_each, index_get. rewrite Hr.
  destruct (existsb _ object_prototype_keys); [|right; eexists; reflexivity].
  destruct (negb _); [right; eexists; reflexivity | left; reflexivity].
Qed.

(** What a record adds does not depend on what the lists hold. *)
Lemma diff_each_shift (d c : list t) (l : t) :
  diff_each idx (Ok (d, c)) l
  = match diff_each idx (Ok ([], [])) l with
    | Ok (dl, cl) => Ok (d ++ dl, c ++ cl)
    | Err e => Err e
    | Thrown e => Thrown e
    end.
Proof.
  unfold diff_each.
  destruct (index_get idx (modelId l)) as [remote| |]; [| |reflexivity].
  - destruct (negb (equals l remote)); [destruct (isBasedOn remote l)|];
      simpl; rewrite ?app_nil_r; reflexivity.
  - destruct (negb _); simpl; rewrite ?app_nil_r; reflexivity.
Qed.

(** Where the entries of the two lists come from, and how many there are. *)
Lemma diff_callback_members (locals : list t) (res : DiffResult) :
  diff_callback idx locals = Ok res ->
  (forall x, In x (deltas res) ->
     exists l, In l locals /\ idx !! modelId l = Some x
               /\ rev l <> rev x /\ prev x = rev l)
  /\ (forall y, In y (conflicts res) ->
        In y locals
        /\ exists r, idx !! modelId y = Some r
                     /\ rev y <> rev r /\ prev r <> rev y)
  /\ length (deltas res) + length (conflicts res) <= length locals.
Proof.
  revert res. induction locals as [|l locals IH] using rev_ind; intros res H.
  - injection H as <-. simpl. split; [|split]; [intros x [] | intros y [] | lia].
  - rewrite diff_callback_snoc in H.
    destruct (diff_callback idx locals) as [res0|e|e]; try discriminate.
    destruct (IH res0 eq_refl) as (Hd & Hc & Hlen).
    rewrite length_app. simpl.
    destruct (idx !! modelId l) as [remote|] eqn:Hr; cycle 1.
    { destruct (diff_each_no_entry (deltas res0) (conflicts res0) l Hr)
        as [Hskip|[e Hthrown]]; rewrite ?Hskip, ?Hthrown in H;
        [|discriminate].
      injection H as <-. simpl. split; [|split]; [| |lia].
      - intros x Hx. destruct (Hd x Hx) as (l0 & Hin & Hrest).
        exists l0. split; [apply in_or_app; left; exact Hin | exact Hrest].
      - intros y Hy. destruct (Hc y Hy) as (Hin & Hrest).
        split; [apply in_or_app; left; exact Hin | exact Hrest]. }
    rewrite (diff_each_cases _ _ _ _ Hr) in H.
    assert (Hd' : forall x, In x (deltas res0) ->
              exists l0, In l0 (locals ++ [l]) /\ idx !! modelId l0 = Some x
                         /\ rev l0 <> rev x /\ prev x = rev l0).
    { intros x Hx. destruct (Hd x Hx) as (l0 & Hin & Hrest).
      exists l0. split; [apply in_or_app; left; exact Hin | exact Hrest]. }
    assert (Hc' : forall y, In y (conflicts res0) ->
              In y (locals ++ [l])
              /\ exists r, idx !! modelId y = Some r
                           /\ rev y <> rev r /\ prev r <> rev y).
    { intros y Hy. destruct (Hc y Hy) as (Hin & Hrest).
      split; [apply in_or_app; left; exact Hin | exact Hrest]. }
    assert (Hl : In l (locals ++ [l])) by (apply in_or_app; right; left; reflexivity).
    destruct (decide (rev l = rev remote)) as [E|E];
      [|destruct (decide (prev remote = rev l)) as [B|B]];
      injection H as <-; simpl.
    + split; [|split]; [exact Hd' | exact Hc' | lia].
    + split; [|split]; [| exact Hc' | rewrite length_app; simpl; lia].
      intros x Hx. apply in_app_or in Hx as [Hx|[<-|[]]]; [apply Hd', Hx|].
      exists l. repeat split; assumption.
    + split; [|split]; [exact Hd' | | rewrite length_app; simpl; lia].
      intros y Hy. apply in_app_or in Hy as [Hy|[<-|[]]]; [apply Hc', Hy|].
      split; [exact Hl|]. exists remote. repeat split; assumption.
Qed.

End DiffLoop.

(** [diff] issues one query, for the given model, every remote [modelId]
    and the checkpoints after [since], and runs the comparison loop on the
    answer. *)
Lemma diff_unfold (World : Type) (find : Change.Query -> Change.Async World (list Change.t))
    (modelName : string) (since : Z) (remoteChanges : list Change.t) (w : World) :
  Change.diff World find modelName since remoteChanges w
  = match find {| Change.where_modelName := modelName;
                  Change.where_modelId_inq := map Change.modelId remoteChanges;
                  Change.where_checkpoint_gt := since |} w with
    | (Ok localChanges, w') =>
        (Change.diff_callback (snd (Change.index_remote remoteChanges)) localChanges, w')
    | (Err e, w') => (Err e, w')
    | (Thrown e, w') => (Thrown e, w')
    end.
Proof.
  unfold Change.diff.
  pose proof (index_remote_ids remoteChanges) as Hids.
  destruct (Change.index_remote remoteChanges) as [ids idx]. simpl in Hids |- *.
  subst ids.
  assert (Hs : Change.normalize_since since = since).
  { unfold Change.normalize_since. destruct (Z.eqb_spec since 0); congruence. }
  rewrite Hs. unfold Change.call.
  destruct (find _ w) as [[locals|e|e] w']; reflexivity.
Qed.

Lemma NoDup_map_eq {A B : Type} (f : A -> B) (l : list A) (a b : A) :
  List.NoDup (map f l) -> In a l -> In b l -> f a = f b -> a = b.
Proof.
  induction l as [|x l IH]; simpl; intros Hnd Ha Hb E; [destruct Ha|].
  inversion Hnd as [|y ys Hx Hl]; subst.
  destruct Ha as [->|Ha], Hb as [->|Hb].
  - reflexivity.
  - exfalso. apply Hx. rewrite E. apply in_map. exact Hb.
  - exfalso. apply Hx. rewrite <- E. apply in_map. exact Ha.
  - apply IH; assumption.
Qed.

(** What the in-memory [find] keeps. *)
Lemma matches_iff (q : Change.Query) (c : Change.t) :
  MemStore.matches q c = true
  <-> Change.modelName c = Change.where_modelName q
      /\ In (Change.modelId c) (Change.where_modelId_inq q)
      /\ exists n, Change.checkpoint c = Some n
                   /\ (Change.where_checkpoint_gt q < n)%Z.
Proof.
  unfold MemStore.matches. rewrite !andb_true_iff, String.eqb_eq, existsb_exists.
  split.
  - intros [[Hn (k & Hin & Hk)] Hc]. apply String.eqb_eq in Hk. subst k.
    split; [exact Hn|]. split; [exact Hin|].
    destruct (Change.checkpoint c) as [n|]; [|discriminate].
    exists n. split; [reflexivity | apply Z.ltb_lt, Hc].
  - intros (Hn & Hin & n & Hc & Hlt). rewrite Hc. split; [split|].
    + exact Hn.
    + exists (Change.modelId c). split; [exact Hin | apply String.eqb_refl].
    + apply Z.ltb_lt, Hlt.
Qed.

Lemma memstore_diff_unfold (modelName : string) (since : Z)
    (remoteChanges db : list Change.t) :
  MemStore.diff modelName since remoteChanges db
  = Change.diff_callback (snd (Change.index_remote remoteChanges))
      (List.filter
         (MemStore.matches
            {| Change.where_modelName := modelName;
               Change.where_modelId_inq := map Change.modelId remoteChanges;
               Change.where_checkpoint_gt := since |}) db).
Proof. unfold MemStore.diff. rewrite diff_unfold. reflexivity. Qed.

(** The loop only appends: the lists after a prefix of the records are
    prefixes of the lists handed over. *)
Lemma diff_callback_app (idx : gmap string Change.t) (l1 l2 : list Change.t)
    (res : Change.DiffResult) :
  Change.diff_callback idx (l1 ++ l2) = Ok res ->
  exists res1 d' c',
    Change.diff_callback idx l1 = Ok res1
    /\ Change.deltas res = Change.deltas res1 ++ d'
    /\ Change.conflicts res = Change.conflicts res1 ++ c'.
Proof.
  revert res. induction l2 as [|l l2 IH] using rev_ind; intros res H.
  - rewrite app_nil_r in H. exists res, [], []. rewrite !app_nil_r. auto.
  - rewrite app_assoc, diff_callback_snoc in H.
    destruct (Change.diff_callback idx (l1 ++ l2)) as [res0|e|e];
      try discriminate.
    destruct (IH res0 eq_refl) as (res1 & d' & c' & H1 & Hd & Hc).
    destruct (idx !! Change.modelId l) as [remote|] eqn:Hr; cycle 1.
    { destruct (diff_each_no_entry idx (Change.deltas res0)
                  (Change.conflicts res0) l Hr)
        as [Hskip|[e Hthrown]]; rewrite ?Hskip, ?Hthrown in H;
        [|discriminate].
      injection H as <-. simpl. eauto 7. }
    rewrite (diff_each_cases idx _ _ l remote Hr) in H.
    destruct (decide (Change.rev l = Change.rev remote));
      [|destruct (decide (Change.prev remote = Change.rev l))];
      injection H as <-; simpl; rewrite ?Hd, ?Hc, <- ?app_assoc; eauto 7.
Qed.

(** Records that all have a counterpart in the index are compared without
    an exception. *)
Lemma diff_callback_total (idx : gmap string Change.t) (locals : list Change.t) :
  (forall l, In l locals -> is_Some (idx !! Change.modelId l)) ->
  exists res, Change.diff_callback idx locals = Ok res.
Proof.
  induction locals as [|l locals IH] using rev_ind; intros Hall.
  - eexists. reflexivity.
  - destruct IH as [res0 Hres0].
    { intros l0 Hl0. apply Hall, in_or_app. left. exact Hl0. }
    destruct (Hall l) as [remote Hr]; [apply in_or_app; right; left; reflexivity|].
    rewrite diff_callback_snoc, Hres0, (diff_each_cases idx _ _ l remote Hr).
    destruct (decide (Change.rev l = Change.rev remote));
      [|destruct (decide (Change.prev remote = Change.rev l))];
      eexists; reflexivity.
Qed.

(** Against the in-memory table, [diff] always hands over a result. *)
Lemma memstore_diff_total (modelName : string) (since : Z)
    (remoteChanges db : list Change.t) :
  exists res, MemStore.diff modelName since remoteChanges db = Ok res.
Proof.
  rewrite memstore_diff_unfold. apply diff_callback_total.
  intros l Hl. apply filter_In in Hl as [_ Hm].
  apply matches_iff in Hm as (_ & Hin & _). simpl in Hin.
  apply index_remote_total. exact Hin.
Qed.

(** ** The diff engine *)

(** Scenario A: the remote change was made from the local revision. *)
Example scenario_A :
  MemStore.diff "user" 0 [Scenario.remote_delta] [Scenario.local5]
  = Ok {| Change.deltas := [Scenario.remote_delta]; Change.conflicts := [] |}.
Proof. reflexivity. Qed.

(** Scenario B: the remote change was made from another revision. *)
Example scenario_B :
  MemStore.diff "user" 0 [Scenario.remote_conflict] [Scenario.local5]
  = Ok {| Change.deltas := []; Change.conflicts := [Scenario.local5] |}.
Proof. reflexivity. Qed.

(** A returned record whose [modelId] no remote change carries but
    [Object.prototype] has a member for: it is skipped when it has no
    [rev], and comparing it throws otherwise. *)
Example inherited_key :
  Change.diff unit
    (answering [Change.new JUndefined JUndefined (Some 1%Z) "user" "toString"])
    "user" 0 [Scenario.remote_delta] tt
  = (Ok {| Change.deltas := []; Change.conflicts := [] |}, tt)
  /\ Change.diff unit
       (answering [Change.new (JStr "A") JUndefined (Some 1%Z) "user" "toString"])
       "user" 0 [Scenario.remote_delta] tt
     = (Thrown (TypeError "undefined is not a function"), tt).
Proof. split; reflexivity. Qed.

(** Equal revisions: nothing to report. *)
Example scenario_equal :
  MemStore.diff "user" 0 [Scenario.remote_same] [Scenario.local5]
  = Ok {| Change.deltas := []; Change.conflicts := [] |}.
Proof. reflexivity. Qed.

(** The lists of two runs of the comparison loop add up. *)
Lemma diff_callback_app_ok (idx : gmap string Change.t) (l1 l2 : list Change.t)
    (r1 r2 : Change.DiffResult) :
  Change.diff_callback idx l1 = Ok r1 ->
  Change.diff_callback idx l2 = Ok r2 ->
  Change.diff_callback idx (l1 ++ l2)
  = Ok {| Change.deltas := Change.deltas r1 ++ Change.deltas r2;
          Change.conflicts := Change.conflicts r1 ++ Change.conflicts r2 |}.
Proof.
  intros H1. revert r2.
  induction l2 as [|l l2 IH] using rev_ind; intros r2 H2.
  - injection H2 as <-. simpl. rewrite !app_nil_r, H1. destruct r1; reflexivity.
  - rewrite diff_callback_snoc in H2.
    destruct (Change.diff_callback idx l2) as [r0|e|e]; try discriminate.
    rewrite app_assoc, diff_callback_snoc, (IH r0 eq_refl).
    cbn [Change.deltas Change.conflicts].
    rewrite diff_each_shift in H2. rewrite diff_each_shift.
    destruct (Change.diff_each idx (Ok ([], [])) l) as [[dl cl]|e|e];
      try discriminate.
    injection H2 as <-. simpl. rewrite <- !app_assoc. reflexivity.
Qed.

Lemma diff_callback_single (idx : gmap string Change.t) (l : Change.t) :
  Change.diff_callback idx [l]
  = match Change.diff_each idx (Ok ([], [])) l with
    | Ok (d, c) => Ok {| Change.deltas := d; Change.conflicts := c |}
    | Err e => Err e
    | Thrown e => Thrown e
    end.
Proof. reflexivity. Qed.

(** The step of the loop at a record with an entry in the index. *)
Lemma diff_callback_step (idx : gmap string Change.t) (l remote : Change.t) :
  idx !! Change.modelId l = Some remote ->
  Change.diff_callback idx [l]
  = if decide (Change.rev l = Change.rev remote)
    then Ok {| Change.deltas := []; Change.conflicts := [] |}
    else if decide (Change.prev remote = Change.rev l)
         then Ok {| Change.deltas := [remote]; Change.conflicts := [] |}
         else Ok {| Change.deltas := []; Change.conflicts := [l] |}.
Proof.
  intros Hr.
  rewrite diff_callback_single, (diff_each_cases idx [] [] l remote Hr).
  destruct (decide (Change.rev l = Change.rev remote));
    [|destruct (decide (Change.prev remote = Change.rev l))]; reflexivity.
Qed.

(** C1: in an invocation of [diff] whose query is answered with the
    records [pre], then [l], then [post], where [l] has the indexed remote
    counterpart [remote]: let [d], [c] be what [diff] reports for [pre]
    alone and [d'], [c'] what it reports for [post] alone.  With equal revs
    the pair adds nothing: [diff] reports [d ++ d'] and [c ++ c'].  With
    unequal revs and [remote.prev] equal to [l.rev], [remote] is appended to
    the deltas at its turn: [d ++ remote :: d'] and [c ++ c'].  Otherwise
    [l] is appended to the conflicts at its turn: [d ++ d'] and
    [c ++ l :: c']. *)
Theorem diff_classifies (World : Type)
    (find : Change.Query -> Change.Async World (list Change.t))
    (modelName : string) (since : Z) (remoteChanges : list Change.t)
    (w w1 : World) (pre post : list Change.t) (l remote : Change.t)
    (d c d' c' : list Change.t) :
  find {| Change.where_modelName := modelName;
          Change.where_modelId_inq := map Change.modelId remoteChanges;
          Change.where_checkpoint_gt := since |} w
  = (Ok (pre ++ l :: post), w1) ->
  snd (Change.index_remote remoteChanges) !! Change.modelId l = Some remote ->
  Change.diff World (answering pre) modelName since remoteChanges w
  = (Ok {| Change.deltas := d; Change.conflicts := c |}, w) ->
  Change.diff World (answering post) modelName since remoteChanges w
  = (Ok {| Change.deltas := d'; Change.conflicts := c' |}, w) ->
  (Change.rev l = Change.rev remote ->
   Change.diff World find modelName since remoteChanges w
   = (Ok {| Change.deltas := d ++ d'; Change.conflicts := c ++ c' |}, w1))
  /\ (Change.rev l <> Change.rev remote ->
      Change.prev remote = Change.rev l ->
      Change.diff World find modelName since remoteChanges w
      = (Ok {| Change.deltas := d ++ remote :: d';
               Change.conflicts := c ++ c' |}, w1))
  /\ (Change.rev l <> Change.rev remote ->
      Change.prev remote <> Change.rev l ->
      Change.diff World find modelName since remoteChanges w
      = (Ok {| Change.deltas := d ++ d';
               Change.conflicts := c ++ l :: c' |}, w1)).
Proof.
  intros Hf Hr Hpre Hpost.
  rewrite diff_unfold in Hpre, Hpost. unfold answering in Hpre, Hpost.
  injection Hpre as Hpre. injection Hpost as Hpost.
  rewrite diff_unfold, Hf.
  pose proof (diff_callback_step _ l remote Hr) as Hl.
  change (pre ++ l :: post) with (pre ++ [l] ++ post).
  split; [|split].
  - intros E. rewrite decide_True in Hl by exact E.
    rewrite (diff_callback_app_ok _ _ _ _ _ Hpre
               (diff_callback_app_ok _ _ _ _ _ Hl Hpost)).
    reflexivity.
  - intros E B. rewrite decide_False in Hl by exact E.
    rewrite decide_True in Hl by exact B.
    rewrite (diff_callback_app_ok _ _ _ _ _ Hpre
               (diff_callback_app_ok _ _ _ _ _ Hl Hpost)).
    reflexivity.
  - intros E B. rewrite decide_False in Hl by exact E.
    rewrite decide_False in Hl by exact B.
    rewrite (diff_callback_app_ok _ _ _ _ _ Hpre
               (diff_callback_app_ok _ _ _ _ _ Hl Hpost)).
    reflexivity.
Qed.

Lemma diff_classifies_witness :
  Change.diff MemStore.world MemStore.find "user" 0 [Scenario.remote_same]
    Scenario.table5
  = (Ok {| Change.deltas := [] ++ []; Change.conflicts := [] ++ [] |},
     Scenario.table5)
  /\ Change.diff MemStore.world MemStore.find "user" 0 [Scenario.remote_delta]
       Scenario.table5
     = (Ok {| Change.deltas := [] ++ Scenario.remote_delta :: [];
              Change.conflicts := [] ++ [] |}, Scenario.table5)
  /\ Change.diff MemStore.world MemStore.find "user" 0 [Scenario.remote_conflict]
       Scenario.table5
     = (Ok {| Change.deltas := [] ++ [];
              Change.conflicts := [] ++ Scenario.local5 :: [] |}, Scenario.table5).
Proof.
  split; [|split].
  - apply (proj1 (diff_classifies MemStore.world MemStore.find "user" 0
                    [Scenario.remote_same] Scenario.table5 Scenario.table5
                    [] [] Scenario.local5 Scenario.remote_same [] [] [] []
                    eq_refl eq_refl eq_refl eq_refl)).
    reflexivity.
  - apply (proj1 (proj2 (diff_classifies MemStore.world MemStore.find "user" 0
                    [Scenario.remote_delta] Scenario.table5 Scenario.table5
                    [] [] Scenario.local5 Scenario.remote_delta [] [] [] []
                    eq_refl eq_refl eq_refl eq_refl))).
    + discriminate.
    + reflexivity.
  - apply (proj2 (proj2 (diff_classifies MemStore.world MemStore.find "user" 0
                    [Scenario.remote_conflict] Scenario.table5 Scenario.table5
                    [] [] Scenario.local5 Scenario.remote_conflict [] [] [] []
                    eq_refl eq_refl eq_refl eq_refl))).
    + discriminate.
    + discriminate.
Defined.


(** With two remote changes for one entity, the later one decides: here
    the earlier would be a delta and the later is a conflict. *)
Example duplicate_remote_last_decides :
  MemStore.diff "user" 0 [Scenario.remote_delta; Scenario.remote_conflict]
    [Scenario.local5]
  = Ok {| Change.deltas := []; Change.conflicts := [Scenario.local5] |}
  /\ MemStore.diff "user" 0 [Scenario.remote_conflict; Scenario.remote_delta]
       [Scenario.local5]
     = Ok {| Change.deltas := [Scenario.remote_delta]; Change.conflicts := [] |}.
Proof. split; reflexivity. Qed.

(** C2: against the in-memory table [db], [diff] compares exactly the
    records of [db] whose [modelName] is the given one, whose [modelId] is
    the [modelId] of some remote change and whose [checkpoint] is strictly
    greater than [since]; a record whose checkpoint equals [since] is not
    compared, and the result is the same as without it. *)
Theorem diff_compares_after_since (modelName : string) (since : Z)
    (remoteChanges db : list Change.t) :
  exists compared : list Change.t,
    MemStore.diff modelName since remoteChanges db
    = Change.diff_callback (snd (Change.index_remote remoteChanges)) compared
    /\ compared
       = List.filter
           (fun l =>
              String.eqb (Change.modelName l) modelName
              && existsb (String.eqb (Change.modelId l))
                   (map Change.modelId remoteChanges)
              && match Change.checkpoint l with
                 | Some n => Z.ltb since n
                 | None => false
                 end) db
    /\ (forall l, In l compared <->
          In l db /\ Change.modelName l = modelName
          /\ In (Change.modelId l) (map Change.modelId remoteChanges)
          /\ exists n, Change.checkpoint l = Some n /\ (since < n)%Z)
    /\ (forall l, Change.checkpoint l = Some since -> ~ In l compared)
    /\ (forall l db1 db2, db = db1 ++ l :: db2 ->
          Change.checkpoint l = Some since ->
          MemStore.diff modelName since remoteChanges db
          = MemStore.diff modelName since remoteChanges (db1 ++ db2)).
Proof.
  set (q := {| Change.where_modelName := modelName;
               Change.where_modelId_inq := map Change.modelId remoteChanges;
               Change.where_checkpoint_gt := since |}).
  assert (Hin : forall l, In l (List.filter (MemStore.matches q) db) <->
            In l db /\ Change.modelName l = modelName
            /\ In (Change.modelId l) (map Change.modelId remoteChanges)
            /\ exists n, Change.checkpoint l = Some n /\ (since < n)%Z).
  { intros l. rewrite filter_In, matches_iff. reflexivity. }
  assert (Hex : forall l, Change.checkpoint l = Some since ->
            MemStore.matches q l = false).
  { intros l Hc. destruct (MemStore.matches q l) eqn:E; [|reflexivity].
    apply matches_iff in E as (_ & _ & n & Hn & Hlt). simpl in Hlt.
    rewrite Hc in Hn. injection Hn as <-. lia. }
  exists (List.filter (MemStore.matches q) db).
  split; [apply memstore_diff_unfold|].
  split; [reflexivity|].
  split; [exact Hin|].
  split.
  - intros l Hc Hl. apply filter_In in Hl as [_ Hm].
    rewrite (Hex l Hc) in Hm. discriminate.
  - intros l db1 db2 -> Hc. rewrite !memstore_diff_unfold. fold q.
    rewrite !List.filter_app. simpl. rewrite (Hex l Hc). reflexivity.
Qed.

Lemma diff_compares_after_since_witness :
  MemStore.diff "user" 5 [Scenario.remote_conflict] ([] ++ Scenario.local5 :: [])
  = MemStore.diff "user" 5 [Scenario.remote_conflict] ([] ++ [])
  /\ ~ In Scenario.local5
         (List.filter
            (fun l =>
               String.eqb (Change.modelName l) "user"
               && existsb (String.eqb (Change.modelId l))
                    (map Change.modelId [Scenario.remote_conflict])
               && match Change.checkpoint l with
                  | Some n => Z.ltb 5 n
                  | None => false
                  end) ([] ++ Scenario.local5 :: [])).
Proof.
  destruct (diff_compares_after_since "user" 5 [Scenario.remote_conflict]
              ([] ++ Scenario.local5 :: []))
    as (compared & _ & Hcompared & _ & Hnot & Hsame).
  split.
  - apply (Hsame Scenario.local5 [] []); reflexivity.
  - rewrite <- Hcompared. apply Hnot. reflexivity.
Defined.

(** Scenario C: a diverging local record written at checkpoint 3 is left
    out of a diff since checkpoint 5. *)
Example scenario_C :
  MemStore.diff "user" 5 [Scenario.remote_conflict] [Scenario.local3]
  = Ok {| Change.deltas := []; Change.conflicts := [] |}
  /\ MemStore.diff "user" 0 [Scenario.remote_conflict] [Scenario.local3]
     = Ok {| Change.deltas := []; Change.conflicts := [Scenario.local3] |}.
Proof. split; reflexivity. Qed.

(** C9: when the table holds at most one record per
    [(modelName, modelId)], no [modelId] has an entry in both the deltas
    and the conflicts of one [diff], and the two lists together hold at
    most one entry per compared local record. *)
Theorem diff_one_disposition (modelName : string) (since : Z)
    (remoteChanges db : list Change.t) (res : Change.DiffResult) :
  List.NoDup (map (fun c => (Change.modelName c, Change.modelId c)) db) ->
  MemStore.diff modelName since remoteChanges db = Ok res ->
  (forall x y, In x (Change.deltas res) -> In y (Change.conflicts res) ->
     Change.modelId x <> Change.modelId y)
  /\ length (Change.deltas res) + length (Change.conflicts res)
     <= length
          (List.filter
             (MemStore.matches
                {| Change.where_modelName := modelName;
                   Change.where_modelId_inq := map Change.modelId remoteChanges;
                   Change.where_checkpoint_gt := since |}) db).
Proof.
  intros Hnd H. rewrite memstore_diff_unfold in H.
  destruct (diff_callback_members _ _ _ H) as (Hd & Hc & Hlen).
  split; [|exact Hlen].
  intros x y Hx Hy Hid.
  destruct (Hd x Hx) as (l & Hl & Hlx & _ & Hbased).
  destruct (Hc y Hy) as (Hyl & r & Hyr & _ & Hnot).
  apply index_remote_entry in Hlx as Hkey. destruct Hkey as [Hkey _].
  apply filter_In in Hl as [Hl Hml]. apply filter_In in Hyl as [Hyl Hmy].
  apply matches_iff in Hml as [Hnl _]. apply matches_iff in Hmy as [Hny _].
  simpl in Hnl, Hny.
  assert (l = y) as ->.
  { apply (NoDup_map_eq _ db l y Hnd Hl Hyl). simpl. congruence. }
  rewrite Hlx in Hyr. injection Hyr as <-. apply Hnot. exact Hbased.
Qed.

Lemma diff_one_disposition_witness :
  (forall x y, In x [Scenario.remote_delta] -> In y [] ->
     Change.modelId x <> Change.modelId y)
  /\ 1 + 0 <= 1.
Proof.
  apply (diff_one_disposition "user" 0 [Scenario.remote_delta] [Scenario.local5]
           {| Change.deltas := [Scenario.remote_delta]; Change.conflicts := [] |}).
  - constructor; [intros [] | constructor].
  - reflexivity.
Defined.

(** ** The rectifier *)

Section RectifyFacts.

Import Change.

Variable World : Type.
Variable Inst : Type.
Variable digest : string -> string -> string.
Variable hashAlgorithm : jsval.
Variable stringify : Inst -> string.
Variable save : t -> Async World t.
Variable models : string -> option (string -> Async World (option Inst)).

Local Abbreviation rectify := (Change.rectify World Inst digest hashAlgorithm stringify save models).

(** C6: [rectify] moves the old [rev] into [prev]; when the entity is
    found it saves the record with [rev] set to the hash of the canonical
    serialization of the entity, and when the entity is not found it saves
    the record with [rev] set to [null]; in both cases the outcome of
    [rectify] is the outcome of that save, so absence alone is no error. *)
Theorem rectify_spec (c : t) (model : string -> Async World (option Inst)) (w : World) :
  models (modelName c) = Some model ->
  (forall inst w1, model (modelId c) w = (Ok (Some inst), w1) ->
     rectify c w
     = save (new (JStr (hash digest hashAlgorithm (stringify inst)))
               (rev c) (checkpoint c) (modelName c) (modelId c)) w1)
  /\ (forall w1, model (modelId c) w = (Ok None, w1) ->
        rectify c w
        = save (new JNull (rev c) (checkpoint c) (modelName c) (modelId c)) w1)
  /\ (forall w1 saved w2, model (modelId c) w = (Ok None, w1) ->
        save (new JNull (rev c) (checkpoint c) (modelName c) (modelId c)) w1
        = (Ok saved, w2) ->
        rectify c w = (Ok saved, w2)).
Proof.
  intros Hm.
  assert (Hfound : forall inst w1, model (modelId c) w = (Ok (Some inst), w1) ->
            rectify c w
            = save (new (JStr (hash digest hashAlgorithm (stringify inst)))
                      (rev c) (checkpoint c) (modelName c) (modelId c)) w1).
  { intros inst w1 H. unfold Change.rectify, call, currentRevision, getModelCtor.
    simpl. rewrite Hm. unfold call. rewrite H. reflexivity. }
  assert (Hgone : forall w1, model (modelId c) w = (Ok None, w1) ->
            rectify c w
            = save (new JNull (rev c) (checkpoint c) (modelName c) (modelId c)) w1).
  { intros w1 H. unfold Change.rectify, call, currentRevision, getModelCtor.
    simpl. rewrite Hm. unfold call. rewrite H. reflexivity. }
  split; [exact Hfound|]. split; [exact Hgone|].
  intros w1 saved w2 H Hs. rewrite (Hgone w1 H). exact Hs.
Qed.

End RectifyFacts.

Lemma rectify_spec_witness :
  fst (MemStore.rectify Scenario.local5 Scenario.world1)
  = Ok (Change.new (JStr "sha1:{}") (JStr "A") (Some 5%Z) "user" "1")
  /\ fst (MemStore.rectify Scenario.local_gone Scenario.world1)
     = Ok (Change.new JNull (JStr "A") (Some 5%Z) "user" "9").
Proof.
  unfold MemStore.rectify. split.
  - rewrite (proj1 (rectify_spec MemStore.world string MemStore.plain_digest
                      JUndefined (fun s => s)
                      (MemStore.save MemStore.plain_digest JUndefined)
                      MemStore.models Scenario.local5
                      (MemStore.entity_findById "user") Scenario.world1 eq_refl)
               "{}" Scenario.world1 eq_refl).
    reflexivity.
  - rewrite (proj1 (proj2 (rectify_spec MemStore.world string MemStore.plain_digest
                      JUndefined (fun s => s)
                      (MemStore.save MemStore.plain_digest JUndefined)
                      MemStore.models Scenario.local_gone
                      (MemStore.entity_findById "user") Scenario.world1 eq_refl))
               Scenario.world1 eq_refl).
    reflexivity.
Defined.

(** ** The tracker *)

Section ParallelFacts.

Import Change.

Context {W A : Type}.

(** Once the callback has been told of an error, the batch does not end
    with a success. *)
Lemma parallel_run_told (tasks : list (Async W A)) :
  forall (results : list (option A)) (first : Error * list (option A))
         (w w' : W) (r : list (option A)),
    parallel_run tasks results (Some first) w <> (Callback None r, w').
Proof.
  induction tasks as [|task rest IH]; intros results first w w' r; simpl.
  - destruct first. discriminate.
  - destruct (task w) as [[a|e|e] w1]; [apply IH | apply IH | discriminate].
Qed.

(** After a prefix of tasks that all succeeded, the batch goes on with the
    remaining tasks from the results and the stores the prefix left. *)
Lemma parallel_run_prefix (tasks1 tasks2 : list (Async W A)) :
  forall (results results' : list (option A)) (w w0 : W),
    parallel_run tasks1 results None w = (Callback None results', w0) ->
    parallel_run (tasks1 ++ tasks2) results None w
    = parallel_run tasks2 results' None w0.
Proof.
  induction tasks1 as [|task rest IH]; intros results results' w w0 H;
    simpl in H |- *.
  - injection H as -> ->. reflexivity.
  - destruct (task w) as [[a|e|e] w1].
    + exact (IH _ _ _ _ H).
    + exfalso. exact (parallel_run_told _ _ _ _ _ _ H).
    + discriminate.
Qed.

End ParallelFacts.

Section TrackFacts.

Import Change.

Variable World : Type.
Variable Inst : Type.
Variable digest : string -> string -> string.
Variable hashAlgorithm : jsval.
Variable stringify : Inst -> string.
Variable findById : string -> Async World (option t).
Variable save : t -> Async World t.
Variable models : string -> option (string -> Async World (option Inst)).

Local Abbreviation track :=
  (Change.track World Inst digest hashAlgorithm stringify findById save models).
Local Abbreviation track_task :=
  (Change.track_task World Inst digest hashAlgorithm stringify findById save models).
Local Abbreviation findOrCreate :=
  (Change.findOrCreate World digest hashAlgorithm findById save).

(** A task whose find-or-create or entity lookup fails with an error ends
    in the exception of the call to [handleError]. *)
Lemma track_task_error_throws (modelName id : string) (w w1 : World) (e : Error) :
  (findOrCreate modelName id w = (Err e, w1)
   \/ exists change model wa,
        findOrCreate modelName id w = (Ok change, wa)
        /\ models (Change.modelName change) = Some model
        /\ model (modelId change) wa = (Err e, w1)) ->
  exists msg, track_task modelName id w = (Thrown (TypeError msg), w1).
Proof.
  intros [H|(change & model & wa & H & Hm & Hl)]; eexists;
    unfold Change.track_task, call; rewrite H.
  - reflexivity.
  - unfold rectify, call, currentRevision, getModelCtor. simpl.
    rewrite Hm. unfold call. rewrite Hl. reflexivity.
Qed.

(** C4 (what the code does instead): when the sub-tasks for the ids
    [pre] have succeeded and the find-or-create or the entity lookup of the
    sub-task for the next id fails with an error [e], [track] does not end
    with [e]: the call to the undefined [handleError] raises a [TypeError]
    and the callback is never called (nor, the tasks running in array
    order, are the remaining sub-tasks run). *)
Theorem track_error_is_thrown (modelName : string) (pre post : list string)
    (id : string) (w w0 w1 : World) (results : list (option t)) (e : Error) :
  track modelName pre w = (Callback None results, w0) ->
  (findOrCreate modelName id w0 = (Err e, w1)
   \/ exists change model wa,
        findOrCreate modelName id w0 = (Ok change, wa)
        /\ models (Change.modelName change) = Some model
        /\ model (modelId change) wa = (Err e, w1)) ->
  exists msg,
    track modelName (pre ++ id :: post) w = (Uncaught (TypeError msg) None, w1).
Proof.
  intros Hpre Hfail.
  destruct (track_task_error_throws modelName id w0 w1 e Hfail) as [msg Hmsg].
  exists msg. unfold Change.track, async_parallel in Hpre |- *.
  rewrite map_app, (parallel_run_prefix _ _ _ _ _ _ Hpre). simpl.
  rewrite Hmsg. reflexivity.
Qed.

End TrackFacts.

Lemma track_error_is_thrown_witness :
  exists msg,
    fst (MemStore.track "user" ["1"; "2"; "3"] Scenario.world0)
    = Change.Uncaught (TypeError msg) None.
Proof.
  destruct (track_error_is_thrown MemStore.world string MemStore.plain_digest
              JUndefined (fun s => s)
              (MemStore.findById MemStore.plain_digest JUndefined)
              (MemStore.save MemStore.plain_digest JUndefined)
              MemStore.models "user" ["1"] ["3"] "2" Scenario.world0
              (snd (MemStore.track "user" ["1"] Scenario.world0))
              (snd (MemStore.findOrCreate "user" "2"
                      (snd (MemStore.track "user" ["1"] Scenario.world0))))
              [Some (Change.new (JStr "sha1:{}") JUndefined None "user" "1")]
              (StoreError "entity store unavailable"))
    as [msg Hmsg].
  - vm_compute. reflexivity.
  - right.
    exists (Change.new JUndefined JUndefined None "user" "2"),
      (MemStore.entity_findById "user"),
      (snd (MemStore.findOrCreate "user" "2"
              (snd (MemStore.track "user" ["1"] Scenario.world0)))).
    split; [vm_compute; reflexivity|]. split; [reflexivity|].
    vm_compute. reflexivity.
  - exists msg. unfold MemStore.track.
    change ["1"; "2"; "3"] with (["1"] ++ "2" :: ["3"]).
    rewrite Hmsg. reflexivity.
Defined.

(** Scenario D: of three tracked ids the second cannot be rectified; the
    call ends in an exception and the callback is not called. *)
Example scenario_D :
  fst (MemStore.track "user" ["1"; "2"; "3"] Scenario.world0)
  = Change.Uncaught (TypeError "undefined is not a function") None.
Proof. vm_compute. reflexivity. Qed.

(** Where an error does reach the callback (a failing save in [rectify]),
    it comes with the results so far: the change for the first id and
    [undefined] for the second. *)
Example track_save_error_partial :
  FlakyStore.track "user" ["1"; "2"] tt
  = (Change.Callback (Some (StoreError "disk full"))
       [Some (Change.new JNull JNull None "user" "1"); None], tt).
Proof. vm_compute. reflexivity. Qed.

(** * Further properties *)

(** ** Predicates and classification *)

Lemma equals_refl (a : Change.t) : Change.equals a a = true.
Proof. unfold Change.equals. apply strict_eq_iff. reflexivity. Qed.

(** X1: [equals] is an equivalence on change records: every record equals
    itself, and the relation is symmetric and transitive. *)
Theorem equals_equivalence (a b c : Change.t) :
  Change.equals a a = true
  /\ Change.equals a b = Change.equals b a
  /\ (Change.equals a b = true -> Change.equals b c = true ->
      Change.equals a c = true).
Proof.
  split; [|split].
  - apply equals_refl.
  - unfold Change.equals, strict_eq.
    destruct (decide (Change.rev a = Change.rev b)) as [E|E].
    + rewrite !bool_decide_eq_true_2 by congruence. reflexivity.
    + rewrite !bool_decide_eq_false_2 by congruence. reflexivity.
  - unfold Change.equals. rewrite !strict_eq_iff. congruence.
Qed.

Lemma equals_equivalence_witness :
  Change.equals Scenario.local5 Scenario.local3 = true.
Proof.
  apply (proj2 (proj2 (equals_equivalence Scenario.local5 Scenario.remote_same
                         Scenario.local3))); reflexivity.
Defined.

(** X2: the type of a record tells which of [rev] and [prev] are set:
    [UPDATE] exactly when both are, [CREATE] exactly when only [rev] is,
    [DELETE] exactly when only [prev] is, [UNKNOWN] exactly when neither
    is; no other value is returned. *)
Theorem type_iff (c : Change.t) :
  (Change.type c = Change.UPDATE
   <-> is_set (Change.rev c) /\ is_set (Change.prev c))
  /\ (Change.type c = Change.CREATE
      <-> is_set (Change.rev c) /\ ~ is_set (Change.prev c))
  /\ (Change.type c = Change.DELETE
      <-> ~ is_set (Change.rev c) /\ is_set (Change.prev c))
  /\ (Change.type c = Change.UNKNOWN
      <-> ~ is_set (Change.rev c) /\ ~ is_set (Change.prev c))
  /\ (Change.type c = Change.UPDATE \/ Change.type c = Change.CREATE
      \/ Change.type c = Change.DELETE \/ Change.type c = Change.UNKNOWN).
Proof.
  unfold Change.type, is_set.
  pose proof (truthy_iff (Change.rev c)) as Hr.
  pose proof (truthy_iff (Change.prev c)) as Hp.
  assert (Hr' : truthy (Change.rev c) = false ->
                ~ exists s, Change.rev c = JStr s /\ s <> "")
    by (intros E H; apply Hr in H; congruence).
  assert (Hp' : truthy (Change.prev c) = false ->
                ~ exists s, Change.prev c = JStr s /\ s <> "")
    by (intros E H; apply Hp in H; congruence).
  destruct (truthy (Change.rev c)), (truthy (Change.prev c)); simpl;
    (split; [|split; [|split; [|split]]]);
    try (split; [discriminate | intros [H1 H2]; exfalso;
                  first [ apply H1, Hr; reflexivity
                        | apply H2, Hp; reflexivity
                        | apply (Hr' eq_refl), H1
                        | apply (Hp' eq_refl), H2 ]]);
    try (split; [intros _ | reflexivity]; split;
         first [ apply Hr; reflexivity | apply Hp; reflexivity
               | apply Hr'; reflexivity | apply Hp'; reflexivity ]);
    auto.
Qed.

(** ** Identity of a record *)

Lemma eqb_empty_false (s : string) : s <> "" -> String.eqb s "" = false.
Proof. intros H. apply String.eqb_neq. exact H. Qed.

(** X3: the [id] getter is [null] exactly when [modelName] or [modelId]
    is empty; otherwise it is the id of the pair; and it does not depend on
    [rev], [prev] or [checkpoint]. *)
Theorem id_getter_spec (digest : string -> string -> string) (hashAlgorithm : jsval)
    (c : Change.t) :
  (Change.id digest hashAlgorithm c = JNull
   <-> Change.modelName c = "" \/ Change.modelId c = "")
  /\ (Change.modelName c <> "" -> Change.modelId c <> "" ->
      Change.id digest hashAlgorithm c
      = JStr (Change.idForModel digest hashAlgorithm
                (Change.modelName c) (Change.modelId c)))
  /\ (forall (r p : jsval) (k : option Z),
        Change.id digest hashAlgorithm
          (Change.new r p k (Change.modelName c) (Change.modelId c))
        = Change.id digest hashAlgorithm c).
Proof.
  unfold Change.id. split; [|split].
  - destruct (String.eqb_spec (Change.modelName c) "") as [En|En];
      destruct (String.eqb_spec (Change.modelId c) "") as [Ei|Ei]; simpl;
      (split; [intros H; first [left; exact En | right; exact Ei | discriminate H]
              | intros [H|H]; first [reflexivity | contradiction]]).
  - intros Hn Hi. rewrite (eqb_empty_false _ Hn), (eqb_empty_false _ Hi).
    reflexivity.
  - intros. reflexivity.
Qed.

Lemma id_getter_spec_witness :
  Change.id MemStore.plain_digest JUndefined Scenario.local5 = JStr "sha1:user-1".
Proof.
  rewrite (proj1 (proj2 (id_getter_spec MemStore.plain_digest JUndefined
                           Scenario.local5))).
  - reflexivity.
  - discriminate.
  - discriminate.
Defined.

(** ** The remote index *)

(** X4: reading the remote index at a key gives a change record exactly
    when the key is the [modelId] of a remote change, and that record is
    one of the remote changes and carries that [modelId].  At any other key
    (no remote change having written the prototype through ["__proto__"])
    the read gives a member inherited from [Object.prototype] when the key
    names one, and [undefined] otherwise. *)
Theorem remote_index_domain (remoteChanges : list Change.t) (k : string) :
  ((exists r, Change.index_get (snd (Change.index_remote remoteChanges)) k
              = Change.OwnChange r)
   <-> In k (map Change.modelId remoteChanges))
  /\ (forall r,
        Change.index_get (snd (Change.index_remote remoteChanges)) k
        = Change.OwnChange r ->
        Change.modelId r = k /\ In r remoteChanges)
  /\ (~ In "__proto__" (map Change.modelId remoteChanges) ->
      ~ In k (map Change.modelId remoteChanges) ->
      (In k Change.object_prototype_keys ->
       Change.index_get (snd (Change.index_remote remoteChanges)) k
       = Change.Inherited)
      /\ (~ In k Change.object_prototype_keys ->
          Change.index_get (snd (Change.index_remote remoteChanges)) k
          = Change.Undefined)).
Proof.
  unfold Change.index_get.
  destruct (snd (Change.index_remote remoteChanges) !! k) as [r0|] eqn:Hr.
  - destruct (index_remote_entry _ _ _ Hr) as [Hk Hin].
    assert (Hid : In k (map Change.modelId remoteChanges))
      by (subst k; apply in_map; exact Hin).
    split; [|split].
    + split; [intros _; exact Hid | intros _; exists r0; reflexivity].
    + intros r [= <-]. split; assumption.
    + intros _ Hno. contradiction.
  - assert (Hid : ~ In k (map Change.modelId remoteChanges)).
    { intros Hin. apply index_remote_total in Hin as [r Hin].
      rewrite Hr in Hin. discriminate. }
    split; [|split].
    + split; [|intros Hin; contradiction].
      intros [r H]. destruct (existsb _ _); discriminate.
    + intros r H. destruct (existsb _ _); discriminate.
    + intros _ _. split; intros Hk.
      * assert (E : existsb (String.eqb k) Change.object_prototype_keys = true).
        { apply existsb_exists. exists k. split; [exact Hk|].
          apply String.eqb_refl. }
        rewrite E. reflexivity.
      * destruct (existsb _ _) eqn:E; [|reflexivity].
        apply existsb_exists in E as (k' & Hin & Heq).
        apply String.eqb_eq in Heq. subst k'. contradiction.
Qed.

Lemma remote_index_domain_witness :
  (Change.modelId Scenario.remote_conflict = "1"
   /\ In Scenario.remote_conflict [Scenario.remote_delta; Scenario.remote_conflict])
  /\ Change.index_get (snd (Change.index_remote [Scenario.remote_delta])) "toString"
     = Change.Inherited.
Proof.
  split.
  - apply (proj1 (proj2 (remote_index_domain
                           [Scenario.remote_delta; Scenario.remote_conflict] "1"))).
    reflexivity.
  - apply (proj2 (proj2 (remote_index_domain [Scenario.remote_delta] "toString"))).
    + intros [H|[]]. discriminate H.
    + intros [H|[]]. discriminate H.
    + simpl. tauto.
Defined.

(** ** The diff engine over any store *)

Section DiffLoopMore.

Import Change.

Variable idx : gmap string t.

(** The comparison loop has no error callback of its own. *)
Lemma diff_callback_not_err (locals : list t) (e : Error) :
  diff_callback idx locals <> Err e.
Proof.
  induction locals as [|l locals IH] using rev_ind; [discriminate|].
  rewrite diff_callback_snoc.
  destruct (diff_callback idx locals) as [res0|e0|e0]; [|exact IH|discriminate].
  unfold diff_each.
  destruct (index_get idx (modelId l)) as [remote| |]; [| |discriminate].
  - destruct (negb (equals l remote)); [destruct (isBasedOn remote l)|];
      discriminate.
  - destruct (negb _); discriminate.
Qed.

(** Every compared record that differs from its counterpart is reported. *)
Lemma diff_callback_complete (locals : list t) (res : DiffResult) (l remote : t) :
  diff_callback idx locals = Ok res ->
  In l locals -> idx !! modelId l = Some remote -> rev l <> rev remote ->
  (prev remote = rev l -> In remote (deltas res))
  /\ (prev remote <> rev l -> In l (conflicts res)).
Proof.
  intros H Hin Hr Hne.
  apply in_split in Hin as (l1 & l2 & ->).
  change (l1 ++ l :: l2) with (l1 ++ [l] ++ l2) in H. rewrite app_assoc in H.
  apply diff_callback_app in H as (res1 & d' & c' & H1 & Hd & Hc).
  rewrite diff_callback_snoc in H1.
  destruct (diff_callback idx l1) as [res0|e0|e0]; try discriminate.
  rewrite (diff_each_cases idx _ _ l remote Hr) in H1.
  rewrite decide_False in H1 by exact Hne.
  rewrite Hd, Hc. split; intros B.
  - rewrite decide_True in H1 by exact B. injection H1 as <-. simpl.
    apply in_or_app. left. apply in_or_app. right. left. reflexivity.
  - rewrite decide_False in H1 by exact B. injection H1 as <-. simpl.
    apply in_or_app. left. apply in_or_app. right. left. reflexivity.
Qed.

End DiffLoopMore.

Section DiffFacts.

Import Change.

Variable World : Type.
Variable find : Query -> Async World (list t).

Local Abbreviation diff := (Change.diff World find).
Local Abbreviation query modelName since remoteChanges :=
  {| where_modelName := modelName;
     where_modelId_inq := map modelId remoteChanges;
     where_checkpoint_gt := since |}.

(** X5: [diff] leaves the stores as its one query leaves them, and it
    ends with the error callback exactly when that query does, with the
    same error. *)
Theorem diff_surfaces_query_errors (modelName : string) (since : Z)
    (remoteChanges : list t) (w : World) :
  snd (diff modelName since remoteChanges w)
  = snd (find (query modelName since remoteChanges) w)
  /\ (forall e, fst (diff modelName since remoteChanges w) = Err e
                <-> fst (find (query modelName since remoteChanges) w) = Err e).
Proof.
  rewrite diff_unfold.
  destruct (find (query modelName since remoteChanges) w) as [[locals|e0|e0] w1];
    simpl; (split; [reflexivity|]); intros e; split; intros H;
    simpl in H |- *; try discriminate H;
    try (injection H as ->; reflexivity).
  exfalso. exact (diff_callback_not_err _ _ _ H).
Qed.

(** X6: when the store answers the query with records whose [modelId]s
    are all among the remote ones, [diff] hands over a result: no
    exception and no error. *)
Theorem diff_no_throw (modelName : string) (since : Z) (remoteChanges : list t)
    (w w1 : World) (localChanges : list t) :
  find (query modelName since remoteChanges) w = (Ok localChanges, w1) ->
  (forall l, In l localChanges -> In (modelId l) (map modelId remoteChanges)) ->
  exists res, diff modelName since remoteChanges w = (Ok res, w1).
Proof.
  intros Hf Hall. rewrite diff_unfold, Hf.
  destruct (diff_callback_total (snd (index_remote remoteChanges)) localChanges)
    as [res Hres].
  - intros l Hl. apply index_remote_total, Hall, Hl.
  - exists res. rewrite Hres. reflexivity.
Qed.

(** X7: every delta [diff] reports is one of the remote changes passed
    in, differs from its own [prev], and belongs to a record the store
    returned; every conflict is a record the store returned whose
    [modelId] is among the remote ones. *)
Theorem diff_results_origin (modelName : string) (since : Z)
    (remoteChanges : list t) (w w1 w' : World) (localChanges : list t)
    (res : DiffResult) :
  find (query modelName since remoteChanges) w = (Ok localChanges, w1) ->
  diff modelName since remoteChanges w = (Ok res, w') ->
  (forall x, In x (deltas res) ->
     In x remoteChanges /\ prev x <> rev x
     /\ exists l, In l localChanges /\ modelId l = modelId x)
  /\ (forall y, In y (conflicts res) ->
        In y localChanges /\ In (modelId y) (map modelId remoteChanges)).
Proof.
  intros Hf H. rewrite diff_unfold, Hf in H. injection H as H _.
  destruct (diff_callback_members _ _ _ H) as (Hd & Hc & _).
  split.
  - intros x Hx. destruct (Hd x Hx) as (l & Hl & Hlx & Hne & Hb).
    apply index_remote_entry in Hlx as [Hk Hin].
    split; [exact Hin|]. split; [congruence|].
    exists l. split; [exact Hl | congruence].
  - intros y Hy. destruct (Hc y Hy) as (Hl & r & Hr & _).
    split; [exact Hl|].
    apply index_remote_entry in Hr as [Hk Hin]. rewrite <- Hk.
    apply in_map. exact Hin.
Qed.

(** X8: what [diff] reports, exactly: a remote change is a delta if and
    only if it is the index entry of a returned local record with another
    [rev] and its [prev] is that record's [rev]; a local record is a
    conflict if and only if it was returned and its index entry has another
    [rev] and a [prev] other than the record's [rev]. *)
Theorem diff_reports_exactly (modelName : string) (since : Z)
    (remoteChanges : list t) (w w1 w' : World) (localChanges : list t)
    (res : DiffResult) :
  find (query modelName since remoteChanges) w = (Ok localChanges, w1) ->
  diff modelName since remoteChanges w = (Ok res, w') ->
  (forall x, In x (deltas res) <->
     exists l, In l localChanges
               /\ snd (index_remote remoteChanges) !! modelId l = Some x
               /\ rev l <> rev x /\ prev x = rev l)
  /\ (forall y, In y (conflicts res) <->
        In y localChanges
        /\ exists r, snd (index_remote remoteChanges) !! modelId y = Some r
                     /\ rev y <> rev r /\ prev r <> rev y).
Proof.
  intros Hf H. rewrite diff_unfold, Hf in H. injection H as H _.
  destruct (diff_callback_members _ _ _ H) as (Hd & Hc & _).
  split.
  - intros x. split; [apply Hd|].
    intros (l & Hl & Hlx & Hne & Hb).
    exact (proj1 (diff_callback_complete _ _ _ l x H Hl Hlx Hne) Hb).
  - intros y. split; [apply Hc|].
    intros (Hl & r & Hr & Hne & Hb).
    exact (proj2 (diff_callback_complete _ _ _ y r H Hl Hr Hne) Hb).
Qed.

End DiffFacts.

Lemma diff_no_throw_witness :
  exists res,
    Change.diff MemStore.world MemStore.find "user" 0 [Scenario.remote_delta]
      Scenario.table5 = (Ok res, Scenario.table5).
Proof.
  apply (diff_no_throw MemStore.world MemStore.find "user" 0
           [Scenario.remote_delta] Scenario.table5 Scenario.table5
           [Scenario.local5]).
  - reflexivity.
  - intros l [<-|[]]. left. reflexivity.
Defined.

Lemma diff_results_origin_witness :
  (forall x, In x [Scenario.remote_delta] ->
     In x [Scenario.remote_delta] /\ Change.prev x <> Change.rev x
     /\ exists l, In l [Scenario.local5] /\ Change.modelId l = Change.modelId x)
  /\ (forall y, In y [] ->
        In y [Scenario.local5]
        /\ In (Change.modelId y) (map Change.modelId [Scenario.remote_delta])).
Proof.
  apply (diff_results_origin MemStore.world MemStore.find "user" 0
           [Scenario.remote_delta] Scenario.table5 Scenario.table5 Scenario.table5
           [Scenario.local5]
           {| Change.deltas := [Scenario.remote_delta]; Change.conflicts := [] |}).
  - reflexivity.
  - reflexivity.
Defined.

Lemma diff_reports_exactly_witness :
  In Scenario.local5 [Scenario.local5]
  /\ exists r, snd (Change.index_remote [Scenario.remote_conflict])
                 !! Change.modelId Scenario.local5 = Some r
               /\ Change.rev Scenario.local5 <> Change.rev r
               /\ Change.prev r <> Change.rev Scenario.local5.
Proof.
  apply (proj2 (diff_reports_exactly MemStore.world MemStore.find "user" 0
                  [Scenario.remote_conflict] Scenario.table5 Scenario.table5
                  Scenario.table5 [Scenario.local5]
                  {| Change.deltas := []; Change.conflicts := [Scenario.local5] |}
                  eq_refl eq_refl) Scenario.local5).
  left. reflexivity.
Defined.

(** ** The diff engine over the in-memory table *)

Lemma filter_none {A : Type} (p : A -> bool) (l : list A) :
  (forall x, In x l -> p x = false) -> List.filter p l = [].
Proof.
  induction l as [|x l IH]; intros H; [reflexivity|]. simpl.
  rewrite (H x) by (left; reflexivity). apply IH.
  intros y Hy. apply H. right. exact Hy.
Qed.

(** X9: with no remote changes, or with an empty table, [diff] reports
    nothing: both lists are empty. *)
Theorem diff_empty_input (modelName : string) (since : Z) (l : list Change.t) :
  MemStore.diff modelName since [] l
  = Ok {| Change.deltas := []; Change.conflicts := [] |}
  /\ MemStore.diff modelName since l []
     = Ok {| Change.deltas := []; Change.conflicts := [] |}.
Proof.
  rewrite !memstore_diff_unfold. split; [|reflexivity].
  rewrite filter_none; [reflexivity|].
  intros c _. unfold MemStore.matches. simpl.
  rewrite andb_false_r. reflexivity.
Qed.

Section PermutationFacts.

Context {A : Type}.

Lemma filter_Permutation (p : A -> bool) (l l' : list A) :
  Permutation l l' -> Permutation (List.filter p l) (List.filter p l').
Proof.
  induction 1 as [|x l l' _ IH|x y l|l l' l'' _ IH1 _ IH2]; simpl.
  - constructor.
  - destruct (p x); [constructor|]; exact IH.
  - destruct (p x), (p y); try reflexivity. constructor.
  - etransitivity; eassumption.
Qed.

Lemma existsb_Permutation (p : A -> bool) (l l' : list A) :
  Permutation l l' -> existsb p l = existsb p l'.
Proof.
  intros HP. apply eq_true_iff_eq. rewrite !existsb_exists.
  split; intros (x & Hin & Hx); exists x; (split; [|exact Hx]).
  - exact (Permutation_in x HP Hin).
  - exact (Permutation_in x (Permutation_sym HP) Hin).
Qed.

(** Among records with distinct keys at most one has a given key. *)
Lemma filter_key_short {K : Type} (f : A -> K) (p : A -> bool) (l : list A) :
  (forall x y, p x = true -> p y = true -> f x = f y) ->
  List.NoDup (map f l) -> length (List.filter p l) <= 1.
Proof.
  intros Hp. induction l as [|x l IH]; simpl; intros Hnd; [lia|].
  inversion Hnd as [|fx fl Hx Hl]; subst.
  destruct (p x) eqn:Ex; [|apply IH, Hl].
  rewrite filter_none; [simpl; lia|].
  intros y Hy. destruct (p y) eqn:Ey; [|reflexivity].
  exfalso. apply Hx. rewrite (Hp x y Ex Ey). apply in_map. exact Hy.
Qed.

Lemma Permutation_short (l l' : list A) :
  Permutation l l' -> length l <= 1 -> l = l'.
Proof.
  intros HP Hlen. destruct l as [|a [|b l]]; simpl in Hlen; [| |lia].
  - symmetry. apply Permutation_nil. exact HP.
  - symmetry. apply Permutation_length_1_inv. exact HP.
Qed.

End PermutationFacts.

Lemma index_remote_Permutation (remotes remotes' : list Change.t) :
  Permutation remotes remotes' ->
  List.NoDup (map Change.modelId remotes) ->
  snd (Change.index_remote remotes) = snd (Change.index_remote remotes').
Proof.
  intros HP Hnd. apply map_eq. intros k. rewrite !index_remote_lookup.
  f_equal. apply Permutation_short.
  - apply filter_Permutation, HP.
  - apply (filter_key_short Change.modelId); [|exact Hnd].
    intros x y Hx Hy. apply String.eqb_eq in Hx, Hy. congruence.
Qed.

(** X10: when the remote changes have pairwise distinct [modelId]s, the
    order in which they are passed to [diff] does not matter. *)
Theorem diff_remote_order_irrelevant (modelName : string) (since : Z)
    (remoteChanges remoteChanges' db : list Change.t) :
  Permutation remoteChanges remoteChanges' ->
  List.NoDup (map Change.modelId remoteChanges) ->
  MemStore.diff modelName since remoteChanges db
  = MemStore.diff modelName since remoteChanges' db.
Proof.
  intros HP Hnd. rewrite !memstore_diff_unfold.
  rewrite (index_remote_Permutation _ _ HP Hnd). f_equal.
  apply List.filter_ext. intros c. unfold MemStore.matches. simpl.
  rewrite (existsb_Permutation _ (map Change.modelId remoteChanges)
             (map Change.modelId remoteChanges')); [reflexivity|].
  apply Permutation_map, HP.
Qed.

Lemma diff_remote_order_irrelevant_witness :
  MemStore.diff "user" 0
    [Scenario.remote_delta; Change.new (JStr "B") (JStr "A") None "user" "2"]
    [Scenario.local5]
  = MemStore.diff "user" 0
      [Change.new (JStr "B") (JStr "A") None "user" "2"; Scenario.remote_delta]
      [Scenario.local5].
Proof.
  apply diff_remote_order_irrelevant.
  - apply perm_swap.
  - constructor; [intros [H|[]]; discriminate H|].
    constructor; [intros []|constructor].
Defined.

(** X11: raising [since] only removes reports: every delta and every
    conflict of a [diff] since a later checkpoint is also reported by the
    [diff] since an earlier one. *)
Theorem diff_since_monotone (modelName : string) (since since' : Z)
    (remoteChanges db : list Change.t) (res res' : Change.DiffResult) :
  (since <= since')%Z ->
  MemStore.diff modelName since remoteChanges db = Ok res ->
  MemStore.diff modelName since' remoteChanges db = Ok res' ->
  (forall x, In x (Change.deltas res') -> In x (Change.deltas res))
  /\ (forall y, In y (Change.conflicts res') -> In y (Change.conflicts res)).
Proof.
  intros Hle H H'. rewrite memstore_diff_unfold in H, H'.
  destruct (diff_callback_members _ _ _ H') as (Hd & Hc & _).
  assert (Hsub : forall l,
            In l (List.filter
                    (MemStore.matches
                       {| Change.where_modelName := modelName;
                          Change.where_modelId_inq := map Change.modelId remoteChanges;
                          Change.where_checkpoint_gt := since' |}) db) ->
            In l (List.filter
                    (MemStore.matches
                       {| Change.where_modelName := modelName;
                          Change.where_modelId_inq := map Change.modelId remoteChanges;
                          Change.where_checkpoint_gt := since |}) db)).
  { intros l Hl. apply filter_In in Hl as [Hl Hm]. apply filter_In.
    split; [exact Hl|].
    apply matches_iff in Hm as (Hn & Hi & n & Hk & Hlt). apply matches_iff.
    simpl in *. split; [exact Hn|]. split; [exact Hi|].
    exists n. split; [exact Hk | lia]. }
  split.
  - intros x Hx. destruct (Hd x Hx) as (l & Hl & Hlx & Hne & Hb).
    exact (proj1 (diff_callback_complete _ _ _ l x H (Hsub l Hl) Hlx Hne) Hb).
  - intros y Hy. destruct (Hc y Hy) as (Hl & r & Hr & Hne & Hb).
    exact (proj2 (diff_callback_complete _ _ _ y r H (Hsub y Hl) Hr Hne) Hb).
Qed.

Lemma diff_since_monotone_witness :
  (forall x, In x [] -> In x [Scenario.remote_delta])
  /\ (forall y : Change.t, In y [] -> In y []).
Proof.
  apply (diff_since_monotone "user" 0 5 [Scenario.remote_delta] [Scenario.local5]
           {| Change.deltas := [Scenario.remote_delta]; Change.conflicts := [] |}
           {| Change.deltas := []; Change.conflicts := [] |}).
  - lia.
  - reflexivity.
  - reflexivity.
Defined.

(** ** Find-or-create and the rectifier over any store *)

Section StoreFacts.

Import Change.

Variable World : Type.
Variable Inst : Type.
Variable digest : string -> string -> string.
Variable hashAlgorithm : jsval.
Variable stringify : Inst -> string.
Variable findById : string -> Async World (option t).
Variable save : t -> Async World t.
Variable models : string -> option (string -> Async World (option Inst)).

Local Abbreviation findOrCreate :=
  (Change.findOrCreate World digest hashAlgorithm findById save).
Local Abbreviation rectify :=
  (Change.rectify World Inst digest hashAlgorithm stringify save models).
Local Abbreviation currentRevision :=
  (Change.currentRevision World Inst digest hashAlgorithm stringify models).

(** X12: [findOrCreate] looks the record up under the id of the pair.  A
    record found is handed over as it is and nothing is saved; a failing
    lookup ends with its error and nothing is saved; and when there is no
    record, the outcome is that of saving a new record for the pair, with
    neither [rev] nor [prev], of type [UNKNOWN], whose own id (for a
    non-empty model name and model id) is the id that was looked up. *)
Theorem findOrCreate_cases (modelName modelId : string) (w : World) :
  (forall ch w1,
     findById (idForModel digest hashAlgorithm modelName modelId) w
     = (Ok (Some ch), w1) ->
     findOrCreate modelName modelId w = (Ok ch, w1))
  /\ (forall e w1,
        findById (idForModel digest hashAlgorithm modelName modelId) w
        = (Err e, w1) ->
        findOrCreate modelName modelId w = (Err e, w1))
  /\ (forall w1,
        findById (idForModel digest hashAlgorithm modelName modelId) w
        = (Ok None, w1) ->
        findOrCreate modelName modelId w
        = save (new JUndefined JUndefined None modelName modelId) w1)
  /\ type (new JUndefined JUndefined None modelName modelId) = UNKNOWN
  /\ (modelName <> "" -> modelId <> "" ->
      id digest hashAlgorithm (new JUndefined JUndefined None modelName modelId)
      = JStr (idForModel digest hashAlgorithm modelName modelId)).
Proof.
  unfold Change.findOrCreate, call.
  split; [|split; [|split; [|split]]].
  - intros ch w1 H. rewrite H. reflexivity.
  - intros e w1 H. rewrite H. reflexivity.
  - intros w1 H. rewrite H. reflexivity.
  - reflexivity.
  - intros Hn Hi. unfold id. simpl.
    rewrite (eqb_empty_false _ Hn), (eqb_empty_false _ Hi). reflexivity.
Qed.

(** X13: when the model of a change is not registered, [rectify] (like
    [currentRevision]) throws a [TypeError] before it reaches any store:
    the stores are left as they were and nothing is saved. *)
Theorem rectify_unregistered_throws (c : t) (w : World) :
  models (modelName c) = None ->
  exists msg,
    currentRevision c w = (Thrown (TypeError msg), w)
    /\ rectify c w = (Thrown (TypeError msg), w).
Proof.
  intros Hm. eexists. split.
  - unfold Change.currentRevision, getModelCtor. rewrite Hm. reflexivity.
  - unfold Change.rectify, call, Change.currentRevision, getModelCtor. simpl.
    rewrite Hm. reflexivity.
Qed.

End StoreFacts.

Lemma findOrCreate_cases_witness :
  MemStore.findOrCreate "user" "1" Scenario.table5
  = (Ok Scenario.local5, Scenario.table5)
  /\ Change.id MemStore.plain_digest JUndefined
       (Change.new JUndefined JUndefined None "user" "1")
     = JStr (Change.idForModel MemStore.plain_digest JUndefined "user" "1").
Proof.
  pose proof (findOrCreate_cases MemStore.world MemStore.plain_digest JUndefined
                (MemStore.findById MemStore.plain_digest JUndefined)
                (MemStore.save MemStore.plain_digest JUndefined)
                "user" "1" Scenario.table5) as (Hfound & _ & _ & _ & Hid).
  split.
  - apply Hfound. reflexivity.
  - apply Hid; discriminate.
Defined.

Lemma rectify_unregistered_throws_witness :
  exists msg,
    Change.currentRevision MemStore.world string MemStore.plain_digest JUndefined
      (fun s => s) (fun _ => None) Scenario.local5 Scenario.world1
    = (Thrown (TypeError msg), Scenario.world1)
    /\ Change.rectify MemStore.world string MemStore.plain_digest JUndefined
         (fun s => s) (MemStore.save MemStore.plain_digest JUndefined)
         (fun _ => None) Scenario.local5 Scenario.world1
       = (Thrown (TypeError msg), Scenario.world1).
Proof.
  apply (rectify_unregistered_throws MemStore.world string MemStore.plain_digest
           JUndefined (fun s => s) (MemStore.save MemStore.plain_digest JUndefined)
           (fun _ => None) Scenario.local5 Scenario.world1).
  reflexivity.
Defined.

(** ** Rectifying and tracking over the in-memory store *)

Section MemStoreFacts.

Import Change.

Local Abbreviation msave := (MemStore.save MemStore.plain_digest JUndefined).
Local Abbreviation mfindById := (MemStore.findById MemStore.plain_digest JUndefined).

(** The revision the entity store gives for a lookup result. *)
Local Abbreviation revision_of o :=
  (match o with
   | Some inst => JStr (MemStore.plain_digest "sha1" inst)
   | None => JNull
   end).

Lemma memstore_save_frame (c : t) (w : MemStore.world) :
  fst (msave c w) = Ok c
  /\ MemStore.entities (snd (msave c w)) = MemStore.entities w
  /\ MemStore.unavailable (snd (msave c w)) = MemStore.unavailable w.
Proof. unfold MemStore.save. simpl. auto. Qed.

Lemma entity_findById_frame (mn mid : string) (w w' : MemStore.world) :
  MemStore.entities w' = MemStore.entities w ->
  MemStore.unavailable w' = MemStore.unavailable w ->
  fst (MemStore.entity_findById mn mid w') = fst (MemStore.entity_findById mn mid w)
  /\ snd (MemStore.entity_findById mn mid w') = w'.
Proof.
  intros He Hu. unfold MemStore.entity_findById. rewrite He, Hu.
  destruct (bool_decide _); auto.
Qed.

Lemma memstore_rectify_unfold (c : t) (w : MemStore.world) :
  MemStore.rectify c w
  = match fst (MemStore.entity_findById (modelName c) (modelId c) w) with
    | Ok o =>
        msave (new (revision_of o) (rev c) (checkpoint c) (modelName c) (modelId c)) w
    | Err e => handleError e w
    | Thrown e => (Thrown e, w)
    end.
Proof.
  unfold MemStore.rectify, Change.rectify, call, currentRevision, getModelCtor,
    MemStore.models, MemStore.entity_findById, handleError, throw, cb_ok.
  simpl. unfold call. simpl.
  destruct (bool_decide _); simpl; [reflexivity|].
  destruct (List.find _ (MemStore.entities w)) as [[k inst]|]; reflexivity.
Qed.

(** What a successful [rectify] hands over, and what it leaves alone. *)
Lemma memstore_rectify_ok (c c' : t) (w w' : MemStore.world) :
  MemStore.rectify c w = (Ok c', w') ->
  exists o,
    fst (MemStore.entity_findById (modelName c) (modelId c) w) = Ok o
    /\ c' = new (revision_of o) (rev c) (checkpoint c) (modelName c) (modelId c)
    /\ MemStore.entities w' = MemStore.entities w
    /\ MemStore.unavailable w' = MemStore.unavailable w.
Proof.
  rewrite memstore_rectify_unfold. intros H.
  destruct (fst (MemStore.entity_findById (modelName c) (modelId c) w))
    as [o|e|e]; try discriminate.
  exists o. split; [reflexivity|].
  destruct (memstore_save_frame
              (new (revision_of o) (rev c) (checkpoint c) (modelName c) (modelId c)) w)
    as (Hs & He & Hu).
  rewrite H in Hs, He, Hu. simpl in Hs, He, Hu. injection Hs as ->. auto.
Qed.

End MemStoreFacts.

Lemma isBasedOn_prev_rev (a b : Change.t) :
  Change.prev a = Change.rev b -> Change.isBasedOn a b = true.
Proof. intros H. unfold Change.isBasedOn. apply strict_eq_iff. exact H. Qed.

(** X14: a change made by rectifying a record is based on that record and
    keeps its model name, model id and checkpoint; so a [diff] of the
    record against its rectified version never reports a conflict. *)
Theorem rectified_never_conflicts (c c' : Change.t) (w w' : MemStore.world) :
  MemStore.rectify c w = (Ok c', w') ->
  Change.isBasedOn c' c = true
  /\ Change.modelName c' = Change.modelName c
  /\ Change.modelId c' = Change.modelId c
  /\ Change.checkpoint c' = Change.checkpoint c
  /\ (forall since, exists res,
        MemStore.diff (Change.modelName c) since [c'] [c] = Ok res
        /\ Change.conflicts res = []).
Proof.
  intros H. apply memstore_rectify_ok in H as (o & _ & Hc' & _).
  assert (Hb : Change.prev c' = Change.rev c) by (subst c'; reflexivity).
  assert (Hid : Change.modelId c' = Change.modelId c) by (subst c'; reflexivity).
  split; [apply isBasedOn_prev_rev, Hb|].
  split; [subst c'; reflexivity|]. split; [exact Hid|].
  split; [subst c'; reflexivity|].
  intros since. rewrite memstore_diff_unfold. simpl List.filter.
  destruct (MemStore.matches _ c); [|eexists; split; reflexivity].
  assert (Hr : snd (Change.index_remote [c']) !! Change.modelId c = Some c').
  { rewrite index_remote_lookup. simpl. rewrite Hid, String.eqb_refl.
    reflexivity. }
  rewrite diff_callback_single, (diff_each_cases _ [] [] c c' Hr).
  destruct (decide (Change.rev c = Change.rev c'));
    [eexists; split; reflexivity|].
  rewrite decide_True by exact Hb. eexists; split; reflexivity.
Qed.

Lemma rectified_never_conflicts_witness :
  Change.isBasedOn (Change.new (JStr "sha1:{}") (JStr "A") (Some 5%Z) "user" "1")
    Scenario.local5 = true.
Proof.
  apply (rectified_never_conflicts Scenario.local5
           (Change.new (JStr "sha1:{}") (JStr "A") (Some 5%Z) "user" "1")
           Scenario.world1
           (snd (MemStore.rectify Scenario.local5 Scenario.world1))).
  vm_compute. reflexivity.
Defined.

(** X15: rectifying a record again while the entity is as it was gives a
    record whose [prev] and [rev] are both the current revision: the record
    equals the one before, the older [prev] is gone, and its type is
    neither [CREATE] nor [DELETE]. *)
Theorem rectify_twice (c c1 c2 : Change.t) (w w1 w2 : MemStore.world) :
  MemStore.rectify c w = (Ok c1, w1) ->
  MemStore.rectify c1 w1 = (Ok c2, w2) ->
  Change.rev c2 = Change.rev c1
  /\ Change.prev c2 = Change.rev c1
  /\ Change.equals c2 c1 = true
  /\ Change.type c2 <> Change.CREATE
  /\ Change.type c2 <> Change.DELETE.
Proof.
  intros H1 H2.
  apply memstore_rectify_ok in H1 as (o1 & Ho1 & Hc1 & He & Hu).
  apply memstore_rectify_ok in H2 as (o2 & Ho2 & Hc2 & _).
  assert (Hsame : o2 = o1).
  { destruct (entity_findById_frame (Change.modelName c) (Change.modelId c)
                w w1 He Hu) as [Hf _].
    assert (Hn : Change.modelName c1 = Change.modelName c) by (subst c1; reflexivity).
    assert (Hi : Change.modelId c1 = Change.modelId c) by (subst c1; reflexivity).
    rewrite Hn, Hi, Hf, Ho1 in Ho2. congruence. }
  subst o2.
  assert (Hr : Change.rev c2 = Change.rev c1) by (subst c1 c2; reflexivity).
  assert (Hp : Change.prev c2 = Change.rev c1) by (subst c2; reflexivity).
  split; [exact Hr|]. split; [exact Hp|].
  split; [unfold Change.equals; apply strict_eq_iff; congruence|].
  unfold Change.type. rewrite Hr, Hp.
  destruct (truthy (Change.rev c1)); simpl; split; discriminate.
Qed.

Lemma rectify_twice_witness :
  Change.rev (Change.new (JStr "sha1:{}") (JStr "sha1:{}") (Some 5%Z) "user" "1")
  = Change.rev (Change.new (JStr "sha1:{}") (JStr "A") (Some 5%Z) "user" "1").
Proof.
  apply (rectify_twice Scenario.local5
           (Change.new (JStr "sha1:{}") (JStr "A") (Some 5%Z) "user" "1")
           (Change.new (JStr "sha1:{}") (JStr "sha1:{}") (Some 5%Z) "user" "1")
           Scenario.world1
           (snd (MemStore.rectify Scenario.local5 Scenario.world1))
           (snd (MemStore.rectify
                   (Change.new (JStr "sha1:{}") (JStr "A") (Some 5%Z) "user" "1")
                   (snd (MemStore.rectify Scenario.local5 Scenario.world1))))).
  - vm_compute. reflexivity.
  - vm_compute. reflexivity.
Defined.

Lemma find_none_existsb {A : Type} (p : A -> bool) (l : list A) :
  List.find p l = None -> existsb p l = false.
Proof.
  intros H. destruct (existsb p l) eqn:E; [|reflexivity].
  apply existsb_exists in E as (x & Hin & Hx).
  rewrite (find_none p l H x Hin) in Hx. discriminate.
Qed.

Lemma find_snoc_none {A : Type} (p : A -> bool) (l : list A) (x : A) :
  List.find p l = None -> p x = true -> List.find p (l ++ [x]) = Some x.
Proof.
  induction l as [|y l IH]; simpl; intros H Hx; [rewrite Hx; reflexivity|].
  destruct (p y); [discriminate|]. apply IH; assumption.
Qed.

Lemma memstore_findOrCreate_unfold (modelName modelId : string)
    (w : MemStore.world) :
  MemStore.findOrCreate modelName modelId w
  = match List.find
            (MemStore.has_id MemStore.plain_digest JUndefined
               (JStr (Change.idForModel MemStore.plain_digest JUndefined
                        modelName modelId)))
            (MemStore.changes w) with
    | Some change => (Ok change, w)
    | None =>
        MemStore.save MemStore.plain_digest JUndefined
          (Change.new JUndefined JUndefined None modelName modelId) w
    end.
Proof.
  unfold MemStore.findOrCreate, Change.findOrCreate, Change.call,
    MemStore.findById.
  destruct (List.find _ (MemStore.changes w)); reflexivity.
Qed.

(** X16: [findOrCreate] is idempotent for a non-empty model name and
    model id: a second call, on the stores as the first call left them,
    hands over the same record and changes nothing. *)
Theorem findOrCreate_idempotent (modelName modelId : string)
    (w w1 : MemStore.world) (c : Change.t) :
  modelName <> "" -> modelId <> "" ->
  MemStore.findOrCreate modelName modelId w = (Ok c, w1) ->
  MemStore.findOrCreate modelName modelId w1 = (Ok c, w1).
Proof.
  intros Hn Hi H. rewrite memstore_findOrCreate_unfold in H.
  rewrite memstore_findOrCreate_unfold.
  set (i := JStr (Change.idForModel MemStore.plain_digest JUndefined
                    modelName modelId)) in *.
  destruct (List.find _ (MemStore.changes w)) as [ch|] eqn:Hf.
  - injection H as -> ->. rewrite Hf. reflexivity.
  - unfold MemStore.save in H.
    assert (Hid : Change.id MemStore.plain_digest JUndefined
                    (Change.new JUndefined JUndefined None modelName modelId) = i).
    { unfold Change.id. simpl.
      rewrite (eqb_empty_false _ Hn), (eqb_empty_false _ Hi). reflexivity. }
    rewrite Hid in H. rewrite (find_none_existsb _ _ Hf) in H.
    injection H as <- <-. simpl.
    rewrite (find_snoc_none _ _ _ Hf); [reflexivity|].
    unfold MemStore.has_id. rewrite Hid. apply bool_decide_eq_true_2. reflexivity.
Qed.

Lemma findOrCreate_idempotent_witness :
  MemStore.findOrCreate "user" "1"
    (snd (MemStore.findOrCreate "user" "1" Scenario.world1))
  = (Ok (Change.new JUndefined JUndefined None "user" "1"),
     snd (MemStore.findOrCreate "user" "1" Scenario.world1)).
Proof.
  apply (findOrCreate_idempotent "user" "1" Scenario.world1).
  - discriminate.
  - discriminate.
  - vm_compute. reflexivity.
Defined.

(** The record a task of [track] hands over for an entity without a change
    record. *)
Lemma memstore_track_task_fresh (modelName id : string) (w : MemStore.world)
    (o : option string) :
  fst (MemStore.findById MemStore.plain_digest JUndefined
         (Change.idForModel MemStore.plain_digest JUndefined modelName id) w)
  = Ok None ->
  fst (MemStore.entity_findById modelName id w) = Ok o ->
  fst (MemStore.track_task modelName id w)
  = Ok (Change.new
          (match o with
           | Some inst => JStr (Change.hash MemStore.plain_digest JUndefined inst)
           | None => JNull
           end) JUndefined None modelName id).
Proof.
  intros Hf Ho.
  unfold MemStore.findById in Hf. simpl in Hf. injection Hf as Hf.
  unfold MemStore.track_task, Change.track_task, Change.call.
  change (Change.findOrCreate MemStore.world MemStore.plain_digest JUndefined
            (MemStore.findById MemStore.plain_digest JUndefined)
            (MemStore.save MemStore.plain_digest JUndefined) modelName id w)
    with (MemStore.findOrCreate modelName id w).
  rewrite memstore_findOrCreate_unfold, Hf.
  set (ch := Change.new JUndefined JUndefined None modelName id).
  destruct (memstore_save_frame ch w) as (Hs & He & Hu).
  destruct (MemStore.save MemStore.plain_digest JUndefined ch w) as [r w1] eqn:Es.
  simpl in Hs, He, Hu. subst r.
  change (Change.rectify MemStore.world string MemStore.plain_digest JUndefined
            (fun s => s) (MemStore.save MemStore.plain_digest JUndefined)
            MemStore.models ch w1)
    with (MemStore.rectify ch w1).
  rewrite memstore_rectify_unfold.
  destruct (entity_findById_frame modelName id w w1 He Hu) as [Hfr _].
  simpl Change.modelName. simpl Change.modelId. rewrite Hfr, Ho.
  apply memstore_save_frame.
Qed.

(** X17: tracking an entity that has no change record yet: when the
    entity exists the task hands over a record with the entity's revision
    and no [prev], of type [CREATE]; when the entity does not exist it
    hands over a record with [rev] [null] and no [prev], of type
    [UNKNOWN]. *)
Theorem track_task_first_time (modelName id : string) (w : MemStore.world)
    (o : option string) :
  fst (MemStore.findById MemStore.plain_digest JUndefined
         (Change.idForModel MemStore.plain_digest JUndefined modelName id) w)
  = Ok None ->
  fst (MemStore.entity_findById modelName id w) = Ok o ->
  fst (MemStore.track_task modelName id w)
  = Ok (Change.new
          (match o with
           | Some inst => JStr (Change.hash MemStore.plain_digest JUndefined inst)
           | None => JNull
           end) JUndefined None modelName id)
  /\ Change.type
       (Change.new
          (match o with
           | Some inst => JStr (Change.hash MemStore.plain_digest JUndefined inst)
           | None => JNull
           end) JUndefined None modelName id)
     = match o with Some _ => Change.CREATE | None => Change.UNKNOWN end.
Proof.
  intros Hf Ho. split; [|destruct o; reflexivity].
  apply memstore_track_task_fresh; assumption.
Qed.

Lemma track_task_first_time_witness :
  fst (MemStore.track_task "user" "1" Scenario.world1)
  = Ok (Change.new (JStr "sha1:{}") JUndefined None "user" "1")
  /\ fst (MemStore.track_task "user" "9" Scenario.world1)
     = Ok (Change.new JNull JUndefined None "user" "9").
Proof.
  split.
  - apply (proj1 (track_task_first_time "user" "1" Scenario.world1 (Some "{}")
                    eq_refl eq_refl)).
  - apply (proj1 (track_task_first_time "user" "9" Scenario.world1 None
                    eq_refl eq_refl)).
Defined.

(** X18: a record handed over by a first-time task of [track] has no
    checkpoint, and a [diff] against a table never compares such a record:
    the result is the same as without it, whatever the model name, [since]
    and the remote changes. *)
Theorem first_tracked_record_not_compared (modelName id : string)
    (w : MemStore.world) (o : option string) (c : Change.t) :
  fst (MemStore.findById MemStore.plain_digest JUndefined
         (Change.idForModel MemStore.plain_digest JUndefined modelName id) w)
  = Ok None ->
  fst (MemStore.entity_findById modelName id w) = Ok o ->
  fst (MemStore.track_task modelName id w) = Ok c ->
  Change.checkpoint c = None
  /\ (forall name since remoteChanges db1 db2,
        MemStore.diff name since remoteChanges (db1 ++ c :: db2)
        = MemStore.diff name since remoteChanges (db1 ++ db2)).
Proof.
  intros Hf Ho Hc. rewrite (memstore_track_task_fresh _ _ _ o Hf Ho) in Hc.
  injection Hc as <-. split; [reflexivity|].
  intros. rewrite !memstore_diff_unfold, !List.filter_app. simpl.
  unfold MemStore.matches at 2. simpl. rewrite andb_false_r. reflexivity.
Qed.

Lemma first_tracked_record_not_compared_witness :
  MemStore.diff "user" 0 [Scenario.remote_conflict]
    ([] ++ Change.new (JStr "sha1:{}") JUndefined None "user" "1" :: [])
  = MemStore.diff "user" 0 [Scenario.remote_conflict] ([] ++ []).
Proof.
  apply (proj2 (first_tracked_record_not_compared "user" "1" Scenario.world1
                  (Some "{}")
                  (Change.new (JStr "sha1:{}") JUndefined None "user" "1")
                  eq_refl eq_refl eq_refl)).
Defined.

(** A task of [track] succeeds when every entity lookup is available, and
    leaves the entity store as it was. *)
Lemma memstore_track_task_ok (modelName id : string) (w : MemStore.world) :
  MemStore.unavailable w = [] ->
  exists c w',
    MemStore.track_task modelName id w = (Ok c, w')
    /\ MemStore.unavailable w' = [].
Proof.
  intros Hu.
  unfold MemStore.track_task, Change.track_task, Change.call.
  change (Change.findOrCreate MemStore.world MemStore.plain_digest JUndefined
            (MemStore.findById MemStore.plain_digest JUndefined)
            (MemStore.save MemStore.plain_digest JUndefined) modelName id w)
    with (MemStore.findOrCreate modelName id w).
  assert (Hfc : exists ch w1, MemStore.findOrCreate modelName id w = (Ok ch, w1)
                              /\ MemStore.unavailable w1 = []).
  { rewrite memstore_findOrCreate_unfold.
    destruct (List.find _ (MemStore.changes w)) as [ch|].
    - exists ch, w. auto.
    - eexists _, _. split; [reflexivity|]. simpl. exact Hu. }
  destruct Hfc as (ch & w1 & -> & Hu1).
  change (Change.rectify MemStore.world string MemStore.plain_digest JUndefined
            (fun s => s) (MemStore.save MemStore.plain_digest JUndefined)
            MemStore.models ch w1)
    with (MemStore.rectify ch w1).
  rewrite memstore_rectify_unfold. unfold MemStore.entity_findById at 1.
  rewrite Hu1. simpl.
  eexists _, _. split; [reflexivity|]. simpl. exact Hu1.
Qed.

Lemma memstore_parallel_ok (modelName : string) (ids : list string) :
  forall (results : list (option Change.t)) (w : MemStore.world),
    MemStore.unavailable w = [] ->
    exists l w',
      Change.parallel_run (map (MemStore.track_task modelName) ids) results None w
      = (Change.Callback None (results ++ map Some l), w')
      /\ length l = length ids.
Proof.
  induction ids as [|id ids IH]; intros results w Hu; simpl.
  - exists [], w. rewrite app_nil_r. auto.
  - destruct (memstore_track_task_ok modelName id w Hu) as (c & w1 & -> & Hu1).
    destruct (IH (results ++ [Some c]) w1 Hu1) as (l & w' & -> & Hlen).
    exists (c :: l), w'. rewrite <- app_assoc. simpl. auto.
Qed.

(** X19: when every entity lookup is available, [track] succeeds for any
    list of ids, also ids of entities that do not exist, and hands over one
    change per id. *)
Theorem track_available (modelName : string) (modelIds : list string)
    (w : MemStore.world) :
  MemStore.unavailable w = [] ->
  exists changes w',
    MemStore.track modelName modelIds w
    = (Change.Callback None (map Some changes), w')
    /\ length changes = length modelIds.
Proof.
  intros Hu.
  destruct (memstore_parallel_ok modelName modelIds [] w Hu) as (l & w' & H & Hlen).
  exists l, w'. split; [exact H | exact Hlen].
Qed.

Lemma track_available_witness :
  exists changes w',
    MemStore.track "user" ["1"; "9"] Scenario.world1
    = (Change.Callback None (map Some changes), w')
    /\ length changes = 2.
Proof.
  apply (track_available "user" ["1"; "9"] Scenario.world1). reflexivity.
Defined.
